(** * loaders: the file loader factory

    A shallow embedding of [loaders/loaders.py]: the [LoaderFactory], the
    [Loader] classes [YamlLoader] and [IniLoader], and the exceptions of the
    module.  Python methods are written in a state-and-exception monad over
    the receiver ([self]) and a world that holds the files and the trace of
    what the program did (lines printed, files opened, parser entry points
    called). *)

From Stdlib Require Import String Ascii List Bool Arith.
Import ListNotations.
Open Scope string_scope.

(** ** Python values *)

(** The values that reach [target_file_exts] and that
    [check_extension_supported] returns. *)
Inductive PyVal : Type :=
| PyNone
| PyBool (b : bool)
| PyStr (s : string)
| PyList (l : list string)
| PyTuple (l : list string).

(** Python's truth value of an object ([if not x]). *)
Definition truthy (v : PyVal) : bool :=
  match v with
  | PyNone => false
  | PyBool b => b
  | PyStr s => negb (s =? "")
  | PyList l | PyTuple l => match l with [] => false | _ :: _ => true end
  end.

(** [x in l] on a list or tuple of strings. *)
Definition in_list (x : string) (l : list string) : bool :=
  existsb (String.eqb x) l.

(** [x in s] on a string: [x] occurs in [s]. *)
Fixpoint in_str (x s : string) : bool :=
  String.prefix x s
  || match s with
     | EmptyString => false
     | String _ s' => in_str x s'
     end.

(** ** Exceptions, outcomes and the world *)

Inductive Exn : Type :=
| NoLoaderFoundError (file_extension msg : string)
| NoTargetFileExtensionsError (msg : string)
| TypeError
| AttributeError
| FileNotFoundError (path : string)
| MissingSectionHeaderError (source : string) (lineno : nat) (line : string)
| DuplicateSectionError (section source : string) (lineno : nat)
| DuplicateOptionError (section option source : string) (lineno : nat)
| ParsingError (source : string)
| NoSectionError (section : string)
| NoOptionError (option section : string).

(** What a call does: it returns, it raises, or it leaves the part of
    Python that this development models ([Unmodelled]). *)
Inductive Outcome (A : Type) : Type :=
| Return (a : A)
| Raise (e : Exn)
| Unmodelled.
Arguments Return {A} a.
Arguments Raise {A} e.
Arguments Unmodelled {A}.

Inductive Event : Type :=
| Printed (line : string)
| Opened (path : string)
| ConfigRead (path : string)
| ConfigReadString (text : string).

Record World : Type := mkWorld {
  files : list (string * string);
  trace : list Event
}.

Definition log (e : Event) (w : World) : World :=
  {| files := files w; trace := trace w ++ [e] |}.

(** The lines written to standard output. *)
Definition stdout (w : World) : list string :=
  flat_map (fun e => match e with Printed l => [l] | _ => [] end) (trace w).

(** ** The monad of methods *)

(** A method of a class whose instances have state [O]: it runs on the
    receiver and the world, and leaves both as they are when it raises. *)
Definition M (O A : Type) : Type := O * World -> Outcome A * (O * World).

Definition ret {O A} (a : A) : M O A := fun s => (Return a, s).

Definition bind {O A B} (m : M O A) (k : A -> M O B) : M O B :=
  fun s =>
    match m s with
    | (Return a, s') => k a s'
    | (Raise e, s') => (Raise e, s')
    | (Unmodelled, s') => (Unmodelled, s')
    end.

Definition raise {O A} (e : Exn) : M O A := fun s => (Raise e, s).

Definition unmodelled {O A} : M O A := fun s => (Unmodelled, s).

Definition get_self {O} : M O O := fun s => (Return (fst s), s).

Definition put_self {O} (o : O) : M O unit := fun s => (Return tt, (o, snd s)).

Definition get_world {O} : M O World := fun s => (Return (snd s), s).

Definition lift {O A} (r : Outcome A) : M O A := fun s => (r, s).

Definition emit {O} (e : Event) : M O unit :=
  fun s => (Return tt, (fst s, log e (snd s))).

(** [try: m except <handled>: h]. *)
Definition try_except {O A} (m : M O A) (handled : Exn -> bool) (h : M O A)
  : M O A :=
  fun s =>
    match m s with
    | (Raise e, s') => if handled e then h s' else (Raise e, s')
    | r => r
    end.

Declare Scope py_scope.
Delimit Scope py_scope with py.
Notation "x <- m ;; k" := (bind m (fun x => k))
  (at level 100, m at next level, right associativity) : py_scope.
Notation "m ;;; k" := (bind m (fun _ => k))
  (at level 100, right associativity) : py_scope.
Open Scope py_scope.

(** ** The exceptions of the module *)

(** [LoaderError.__init__]: stores the message and prints it. *)
Definition LoaderError__init__ {O} (msg : string) : M O unit :=
  emit (Printed msg).

Definition NoLoaderFoundError_msg (file_extension : string) : string :=
  "No loader found for file extension `" ++ file_extension
  ++ "` in LoaderFactory.".

Definition NoLoaderFoundError__init__ {O} (file_extension : string) : M O Exn :=
  let msg := NoLoaderFoundError_msg file_extension in
  LoaderError__init__ msg ;;;
  ret (NoLoaderFoundError file_extension msg).

Definition NoTargetFileExtensionsError_msg : string :=
  "The LoaderFactory's `target_file_extensions` attribute must not be empty.".

Definition NoTargetFileExtensionsError__init__ {O} : M O Exn :=
  let msg := NoTargetFileExtensionsError_msg in
  LoaderError__init__ msg ;;;
  ret (NoTargetFileExtensionsError msg).

(** ** Files *)

Fixpoint dict_get {V} (k : string) (d : list (string * V)) : option V :=
  match d with
  | [] => None
  | (k', v) :: d' => if k' =? k then Some v else dict_get k d'
  end.

(** [d[k] = v] on an insertion-ordered dict: an existing key keeps its
    place, a new key goes to the end. *)
Fixpoint dict_set {V} (k : string) (v : V) (d : list (string * V))
  : list (string * V) :=
  match d with
  | [] => [(k, v)]
  | (k', v') :: d' =>
      if k' =? k then (k, v) :: d' else (k', v') :: dict_set k v d'
  end.

Definition dict_keys {V} (d : list (string * V)) : list string := map fst d.

(** [open(path)]: the call is recorded; a missing file raises. *)
Definition open {O} (path : string) : M O string :=
  emit (Opened path) ;;;
  w <- get_world ;;
  match dict_get path (files w) with
  | Some content => ret content
  | None => raise (FileNotFoundError path)
  end.

Definition is_OSError (e : Exn) : bool :=
  match e with FileNotFoundError _ => true | _ => false end.

(** ** Text *)

Definition nl : string := String "010"%char "".

Definition is_space (c : ascii) : bool :=
  (c =? " ")%char || (c =? "009")%char || (c =? "010")%char.

(** The characters of the modelled texts: printable ASCII, tab and newline.
    On these Python's [str.strip], [\s], [str.lower] and the line splitting
    of files and of [io.StringIO] are the functions below. *)
Definition supported_char (c : ascii) : bool :=
  let n := nat_of_ascii c in
  ((n =? 9) || (n =? 10) || ((32 <=? n) && (n <=? 126)))%nat.

Fixpoint supported_text (s : string) : bool :=
  match s with
  | EmptyString => true
  | String c s' => supported_char c && supported_text s'
  end.

Fixpoint lstrip (s : string) : string :=
  match s with
  | EmptyString => EmptyString
  | String c s' => if is_space c then lstrip s' else s
  end.

Fixpoint rstrip (s : string) : string :=
  match s with
  | EmptyString => EmptyString
  | String c s' =>
      match rstrip s' with
      | EmptyString => if is_space c then EmptyString else String c EmptyString
      | r => String c r
      end
  end.

Definition strip (s : string) : string := lstrip (rstrip s).

Definition lower_char (c : ascii) : ascii :=
  let n := nat_of_ascii c in
  if ((65 <=? n) && (n <=? 90))%nat then ascii_of_nat (n + 32) else c.

Fixpoint lower (s : string) : string :=
  match s with
  | EmptyString => EmptyString
  | String c s' => String (lower_char c) (lower s')
  end.

(** The lines of a text as iteration over a file yields them, each with its
    newline (the last one may have none). *)
Fixpoint readlines (s : string) : list string :=
  match s with
  | EmptyString => []
  | String c s' =>
      if (c =? "010")%char then String c EmptyString :: readlines s'
      else match readlines s' with
           | [] => [String c EmptyString]
           | l :: ls => String c l :: ls
           end
  end.

(** [sep.join(l)]. *)
Fixpoint join (sep : string) (l : list string) : string :=
  match l with
  | [] => ""
  | [x] => x
  | x :: xs => x ++ sep ++ join sep xs
  end.

Fixpoint count_char (c : ascii) (s : string) : nat :=
  match s with
  | EmptyString => 0
  | String c' s' => (if (c' =? c)%char then 1 else 0) + count_char c s'
  end.

(** The text before the first character that satisfies [p], and the text
    after it. *)
Fixpoint split_at (p : ascii -> bool) (s : string) : option (string * string) :=
  match s with
  | EmptyString => None
  | String c s' =>
      if p c then Some (EmptyString, s')
      else match split_at p s' with
           | Some (a, b) => Some (String c a, b)
           | None => None
           end
  end.

(** ** The standard library's [configparser]

    [ConfigParser] with the settings [IniLoader] uses (the defaults:
    delimiters [=] and [:], comment prefixes [#] and [;], no inline
    comments, strict, empty lines in values, default section [DEFAULT],
    basic interpolation), after CPython's [Lib/configparser.py].  Three
    things are left [Unmodelled]: texts with characters outside
    [supported_char], a header line with more than one closing bracket and an
    option line with an empty name (CPython versions differ on both), and
    the expansion of a value that contains a percent sign. *)
Module configparser.

(** A value while [_read] runs is the list of its lines; it is joined into
    a string at the end of [_read]. *)
Inductive OptVal : Type :=
| Lines (l : list string)
| Joined (s : string).

Definition SectionDict : Type := list (string * OptVal).

Record ConfigParser : Type := mkConfigParser {
  _sections : list (string * SectionDict);
  _defaults : SectionDict
}.

Definition default_section : string := "DEFAULT".

(** [ConfigParser()]. *)
Definition ConfigParser__init__ : ConfigParser :=
  {| _sections := []; _defaults := [] |}.

(** The dict [cursect] refers to: the defaults or a section of the parser. *)
Inductive Cursect : Type :=
| CurDefaults
| CurSection (name : string).

Inductive Added : Type :=
| AddedSection (sectname : string)
| AddedOption (sectname : option string) (optname : string).

Definition option_eqb (a b : option string) : bool :=
  match a, b with
  | Some x, Some y => x =? y
  | None, None => true
  | _, _ => false
  end.

Definition added_eqb (a b : Added) : bool :=
  match a, b with
  | AddedSection x, AddedSection y => x =? y
  | AddedOption s o, AddedOption s' o' => option_eqb s s' && (o =? o')
  | _, _ => false
  end.

(** The local variables of [_read]. *)
Record Locals : Type := mkLocals {
  elements_added : list Added;
  cursect : option Cursect;
  sectname : option string;
  optname : option string;
  indent_level : nat;
  e : bool
}.

Definition cursect_dict (c : Cursect) (self : ConfigParser)
  : option SectionDict :=
  match c with
  | CurDefaults => Some (_defaults self)
  | CurSection name => dict_get name (_sections self)
  end.

(** [cursect[k]]. *)
Definition cursect_getitem (c : Cursect) (k : string)
  : M ConfigParser OptVal :=
  self <- get_self ;;
  match cursect_dict c self with
  | Some d =>
      match dict_get k d with
      | Some v => ret v
      | None => unmodelled
      end
  | None => unmodelled
  end.

(** [cursect[k] = v]. *)
Definition cursect_setitem (c : Cursect) (k : string) (v : OptVal)
  : M ConfigParser unit :=
  self <- get_self ;;
  match c with
  | CurDefaults =>
      put_self {| _sections := _sections self;
                  _defaults := dict_set k v (_defaults self) |}
  | CurSection name =>
      match dict_get name (_sections self) with
      | Some d =>
          put_self {| _sections := dict_set name (dict_set k v d)
                                     (_sections self);
                      _defaults := _defaults self |}
      | None => unmodelled
      end
  end.

(** [cursect[k].append(line)]. *)
Definition cursect_append (c : Cursect) (k : string) (line : string)
  : M ConfigParser unit :=
  v <- cursect_getitem c k ;;
  match v with
  | Lines l => cursect_setitem c k (Lines (l ++ [line]))
  | Joined _ => unmodelled
  end.

(** [line.strip().startswith(prefix)] for one of the comment prefixes. *)
Definition is_comment (line : string) : bool :=
  String.prefix "#" (strip line) || String.prefix ";" (strip line).

(** Where [NONSPACECRE] first matches. *)
Fixpoint first_nonspace (line : string) : option nat :=
  match line with
  | EmptyString => None
  | String c s => if is_space c then option_map S (first_nonspace s)
                  else Some 0
  end.

Inductive HeaderMatch : Type :=
| NoHeader
| Header (name : string)
| HeaderVersionDependent.

(** [SECTCRE.match(value)]: an opening bracket, a non-empty name, a closing
    bracket; what follows the closing bracket is ignored. *)
Definition match_header (value : string) : HeaderMatch :=
  match value with
  | String "[" rest =>
      match count_char "]" rest with
      | 0 => NoHeader
      | 1 => match split_at (Ascii.eqb "]") rest with
             | Some (EmptyString, _) => NoHeader
             | Some (name, _) => Header name
             | None => NoHeader
             end
      | _ => HeaderVersionDependent
      end
  | _ => NoHeader
  end.

Definition is_delim (c : ascii) : bool := (c =? "=")%char || (c =? ":")%char.

(** [_optcre.match(value)]: the groups [option] and [value], around the
    first delimiter and the white space on both sides of it. *)
Definition match_option (value : string) : option (string * string) :=
  match split_at is_delim value with
  | Some (before, after) => Some (rstrip before, lstrip after)
  | None => None
  end.

Definition optionxform (optionstr : string) : string := lower optionstr.

(** The section header branch of [_read]. *)
Definition read_header (fpname : string) (lineno : nat) (name : string)
    (st : Locals) : M ConfigParser Locals :=
  self <- get_self ;;
  match dict_get name (_sections self) with
  | Some _ =>
      if existsb (added_eqb (AddedSection name)) (elements_added st)
      then raise (DuplicateSectionError name fpname lineno)
      else ret {| elements_added := AddedSection name :: elements_added st;
                  cursect := Some (CurSection name);
                  sectname := Some name;
                  optname := None;
                  indent_level := indent_level st;
                  e := e st |}
  | None =>
      if name =? default_section
      then ret {| elements_added := elements_added st;
                  cursect := Some CurDefaults;
                  sectname := Some name;
                  optname := None;
                  indent_level := indent_level st;
                  e := e st |}
      else
        put_self {| _sections := dict_set name [] (_sections self);
                    _defaults := _defaults self |} ;;;
        ret {| elements_added := AddedSection name :: elements_added st;
               cursect := Some (CurSection name);
               sectname := Some name;
               optname := None;
               indent_level := indent_level st;
               e := e st |}
  end.

(** The option branch of [_read], in the dict [c]. *)
Definition read_option (fpname : string) (lineno : nat) (value : string)
    (c : Cursect) (st : Locals) : M ConfigParser Locals :=
  match match_option value with
  | Some (option, optval) =>
      if option =? "" then unmodelled
      else
        let name := optionxform (rstrip option) in
        if existsb (added_eqb (AddedOption (sectname st) name))
             (elements_added st)
        then raise (DuplicateOptionError
                      (match sectname st with Some s => s | None => "" end)
                      name fpname lineno)
        else
          cursect_setitem c name (Lines [strip optval]) ;;;
          ret {| elements_added :=
                   AddedOption (sectname st) name :: elements_added st;
                 cursect := cursect st;
                 sectname := sectname st;
                 optname := Some name;
                 indent_level := indent_level st;
                 e := e st |}
  | None =>
      ret {| elements_added := elements_added st;
             cursect := cursect st;
             sectname := sectname st;
             optname := optname st;
             indent_level := indent_level st;
             e := true |}
  end.

(** One turn of the loop of [_read]. *)
Definition read_line (fpname : string) (lineno : nat) (line : string)
    (st : Locals) : M ConfigParser Locals :=
  let comment := is_comment line in
  let value := if comment then "" else strip line in
  if value =? "" then
    match comment, cursect st, optname st with
    | false, Some c, Some o => cursect_append c o "" ;;; ret st
    | _, _, _ => ret st
    end
  else
    let cur_indent_level :=
      match first_nonspace line with Some n => n | None => 0 end in
    match cursect st, optname st, (indent_level st <? cur_indent_level)%nat with
    | Some c, Some o, true => cursect_append c o value ;;; ret st
    | _, _, _ =>
        let st := {| elements_added := elements_added st;
                     cursect := cursect st;
                     sectname := sectname st;
                     optname := optname st;
                     indent_level := cur_indent_level;
                     e := e st |} in
        match match_header value with
        | Header name => read_header fpname lineno name st
        | HeaderVersionDependent => unmodelled
        | NoHeader =>
            match cursect st with
            | None => raise (MissingSectionHeaderError fpname lineno line)
            | Some c => read_option fpname lineno value c st
            end
        end
    end.

Fixpoint read_lines (fpname : string) (lineno : nat) (lines : list string)
    (st : Locals) : M ConfigParser Locals :=
  match lines with
  | [] => ret st
  | line :: rest =>
      st' <- read_line fpname lineno line st ;;
      read_lines fpname (S lineno) rest st'
  end.

Definition join_value (v : OptVal) : OptVal :=
  match v with
  | Lines l => Joined (rstrip (join nl l))
  | Joined s => Joined s
  end.

Definition join_options (d : SectionDict) : SectionDict :=
  map (fun kv => (fst kv, join_value (snd kv))) d.

Definition _join_multiline_values : M ConfigParser unit :=
  self <- get_self ;;
  put_self {| _sections :=
                map (fun kv => (fst kv, join_options (snd kv)))
                  (_sections self);
              _defaults := join_options (_defaults self) |}.

(** [_read(fp, fpname)] on a file object with the given content. *)
Definition _read (content fpname : string) : M ConfigParser unit :=
  if negb (supported_text content) then unmodelled
  else
    st <- read_lines fpname 1 (readlines content)
            {| elements_added := []; cursect := None; sectname := None;
               optname := None; indent_level := 0; e := false |} ;;
    _join_multiline_values ;;;
    if e st then raise (ParsingError fpname) else ret tt.

(** [read(filename)] with one file name: a file that cannot be opened is
    skipped; the files read are returned. *)
Definition read (filename : string) : M ConfigParser (list string) :=
  emit (ConfigRead filename) ;;;
  try_except
    (content <- open filename ;;
     _read content filename ;;;
     ret [filename])
    is_OSError
    (ret []).

Definition read_string (string : string) : M ConfigParser unit :=
  emit (ConfigReadString string) ;;;
  _read string "<string>".

Definition sections : M ConfigParser (list string) :=
  self <- get_self ;;
  ret (dict_keys (_sections self)).

(** [opts.update(other)]. *)
Definition dict_update {V} (opts other : list (string * V))
  : list (string * V) :=
  fold_left (fun d kv => dict_set (fst kv) (snd kv) d) other opts.

Definition options (section : string) : M ConfigParser (list string) :=
  self <- get_self ;;
  match dict_get section (_sections self) with
  | Some opts => ret (dict_keys (dict_update opts (_defaults self)))
  | None => raise (NoSectionError section)
  end.

(** [_unify_values(section, None)]: the section's dict before the
    defaults. *)
Definition _unify_values (section : string)
  : M ConfigParser (list SectionDict) :=
  self <- get_self ;;
  match dict_get section (_sections self) with
  | Some sectiondict => ret [sectiondict; _defaults self]
  | None =>
      if negb (section =? default_section) then raise (NoSectionError section)
      else ret [[]; _defaults self]
  end.

Fixpoint chain_get (k : string) (maps : list SectionDict) : option OptVal :=
  match maps with
  | [] => None
  | d :: rest =>
      match dict_get k d with
      | Some v => Some v
      | None => chain_get k rest
      end
  end.

(** [get(section, option)]: the value with its interpolations expanded.  A
    value that an interrupted [_read] left as a list has no [find]. *)
Definition get (section option : string) : M ConfigParser string :=
  d <- _unify_values section ;;
  let option := optionxform option in
  match chain_get option d with
  | None => raise (NoOptionError option section)
  | Some (Joined value) =>
      if in_str "%" value then unmodelled else ret value
  | Some (Lines _) => raise AttributeError
  end.

End configparser.

Import configparser.

(** ** The loaders *)

(** The subclasses of [Loader]. *)
Inductive LoaderClass : Type :=
| YamlLoader
| IniLoader.

Definition _SUPPORTED_EXTS (cls : LoaderClass) : list string :=
  match cls with
  | YamlLoader => [".yml"; ".yaml"]
  | IniLoader => [".ini"; ".config"]
  end.

(** [Loader.__subclasses__()]: the direct subclasses, in the order of their
    definition. *)
Definition Loader__subclasses__ : list LoaderClass := [YamlLoader; IniLoader].

(** [Loader.check_extension_supported]: [True] when the extension is
    listed; the method ends without a [return] when it is not. *)
Definition check_extension_supported (cls : LoaderClass) (file_ext : string)
  : PyVal :=
  if in_list file_ext (_SUPPORTED_EXTS cls) then PyBool true else PyNone.

(** An instance of a loader class; an [IniLoader] holds its parser. *)
Inductive Loader : Type :=
| YamlLoaderObj
| IniLoaderObj (config : ConfigParser).

Definition class_of (l : Loader) : LoaderClass :=
  match l with
  | YamlLoaderObj => YamlLoader
  | IniLoaderObj _ => IniLoader
  end.

(** [cls()]: [IniLoader.__init__] makes a new [ConfigParser]. *)
Definition instantiate (cls : LoaderClass) : Loader :=
  match cls with
  | YamlLoader => YamlLoaderObj
  | IniLoader => IniLoaderObj ConfigParser__init__
  end.

(** *** IniLoader *)

Definition is_MissingSectionHeaderError (e : Exn) : bool :=
  match e with MissingSectionHeaderError _ _ _ => true | _ => false end.

(** [IniLoader._add_section_head]. *)
Definition _add_section_head (path : string) : M ConfigParser unit :=
  content <- open path ;;
  read_string ("[__headless__]" ++ nl ++ content).

(** The data [IniLoader.load] returns: section, option, value. *)
Definition IniData : Type := list (string * list (string * string)).

(** [{key(x): value(x) for x in xs}]. *)
Fixpoint dict_comprehension {O V} (xs : list string)
    (value : string -> M O V) (acc : list (string * V))
  : M O (list (string * V)) :=
  match xs with
  | [] => ret acc
  | x :: rest =>
      v <- value x ;;
      dict_comprehension rest value (dict_set x v acc)
  end.

(** The dict that [IniLoader.load] returns: for every section of
    [self.config] its options with their values. *)
Definition config_as_dict : M ConfigParser IniData :=
  secs <- sections ;;
  dict_comprehension secs
    (fun section =>
       opts <- options section ;;
       dict_comprehension opts (fun option => get section option) [])
    [].

(** [IniLoader.load], on the parser in [self.config]. *)
Definition IniLoader_load (path : string) : M ConfigParser IniData :=
  try_except (read path ;;; ret tt)
    is_MissingSectionHeaderError
    (_add_section_head path) ;;;
  config_as_dict.


(** ** The factory *)

(** A [LoaderFactory] object; the attribute is absent until the setter has
    stored it. *)
Record LoaderFactory : Type := mkLoaderFactory {
  _target_file_exts : option PyVal
}.

(** The getter of the property [target_file_exts]. *)
Definition target_file_exts : M LoaderFactory PyVal :=
  self <- get_self ;;
  match _target_file_exts self with
  | Some v => ret v
  | None => raise AttributeError
  end.

(** The setter of the property [target_file_exts]. *)
Definition set_target_file_exts (target_file_exts : PyVal)
  : M LoaderFactory unit :=
  if negb (truthy target_file_exts) then
    e <- NoTargetFileExtensionsError__init__ ;;
    raise e
  else
    let target_file_exts :=
      match target_file_exts with
      | PyStr s => PyList [s]
      | v => v
      end in
    put_self {| _target_file_exts := Some target_file_exts |}.

Definition LoaderFactory__init__ (target_file_exts : PyVal)
  : M LoaderFactory unit :=
  set_target_file_exts target_file_exts.

(** [LoaderFactory(target_file_exts)]: a new object, then [__init__]; the
    object is returned when [__init__] did not raise. *)
Definition new_LoaderFactory (target_file_exts : PyVal) (w : World)
  : Outcome LoaderFactory * World :=
  match LoaderFactory__init__ target_file_exts
          ({| _target_file_exts := None |}, w) with
  | (Return _, (self, w')) => (Return self, w')
  | (Raise e, (_, w')) => (Raise e, w')
  | (Unmodelled, (_, w')) => (Unmodelled, w')
  end.

(** [x in v]. *)
Definition py_contains (v : PyVal) (x : string) : Outcome bool :=
  match v with
  | PyList l | PyTuple l => Return (in_list x l)
  | PyStr s => Return (in_str x s)
  | PyNone | PyBool _ => Raise TypeError
  end.

(** The loop of [get_loader] over the subclasses. *)
Fixpoint scan_loaders (classes : list LoaderClass) (file_ext : string)
  : M LoaderFactory (option Loader) :=
  match classes with
  | [] =>
      e <- NoLoaderFoundError__init__ file_ext ;;
      raise e
  | loader :: rest =>
      if truthy (check_extension_supported loader file_ext)
      then ret (Some (instantiate loader))
      else scan_loaders rest file_ext
  end.

(** [LoaderFactory.get_loader]; Python's [None] is [None]. *)
Definition get_loader (file_ext : string) : M LoaderFactory (option Loader) :=
  exts <- target_file_exts ;;
  targeted <- lift (py_contains exts file_ext) ;;
  if negb targeted then ret None
  else scan_loaders Loader__subclasses__ file_ext.

(** The strings of a collection of extensions (a list or a tuple). *)
Definition collection_items (v : PyVal) : option (list string) :=
  match v with
  | PyList l | PyTuple l => Some l
  | _ => None
  end.

(** The stored target extension set of a factory, when it is a collection. *)
Definition stored_items (f : LoaderFactory) : option (list string) :=
  match _target_file_exts f with
  | Some v => collection_items v
  | None => None
  end.

(** What the setter stores for an accepted value: a bare string becomes a
    one-element list, a collection is stored as it is. *)
Definition normalized (v : PyVal) : PyVal :=
  match v with
  | PyStr s => PyList [s]
  | v => v
  end.

(** Some subclass of [Loader] supports the extension. *)
Definition supported_by (classes : list LoaderClass) (x : string) : Prop :=
  exists cls, In cls classes /\ check_extension_supported cls x = PyBool true.

(** The world after [get_loader] has ended with [r]: the message of a
    [NoLoaderFoundError] has been printed, nothing else has happened. *)
Definition world_after (r : Outcome (option Loader)) (w : World) : World :=
  match r with
  | Raise (NoLoaderFoundError _ msg) => log (Printed msg) w
  | _ => w
  end.

(** A world with no files where nothing has happened yet. *)
Definition empty_world : World := {| files := []; trace := [] |}.

(** The factory of the tests: [LoaderFactory(['.yml', '.yaml', '.ini'])]. *)
Definition target_file_extensions : PyVal := PyList [".yml"; ".yaml"; ".ini"].

(** The factory [LoaderFactory('.noloader')] of the tests, once built. *)
Definition noloader_factory : LoaderFactory :=
  {| _target_file_exts := Some (PyList [".noloader"]) |}.

(** Two files with one section each: [a.ini] holds [[a]] with [x=1] and
    [b.ini] holds [[b]] with [y=2]. *)
Definition two_files_world : World :=
  {| files := [("a.ini", "[a]" ++ nl ++ "x=1" ++ nl);
               ("b.ini", "[b]" ++ nl ++ "y=2" ++ nl)];
     trace := [] |}.

(** Inside a section [_read] stays inside a section, and what it raises
    is not [MissingSectionHeaderError]. *)
Definition in_section_outcome (r : Outcome Locals) : Prop :=
  match r with
  | Return st => cursect st <> None
  | Raise e => is_MissingSectionHeaderError e = false
  | Unmodelled => True
  end.

(** Before the first section header [_read] changes nothing: a line is
    skipped, or is the header that opens a section, or raises
    [MissingSectionHeaderError]. *)
Definition before_section_outcome (s s' : ConfigParser * World)
    (r : Outcome Locals) : Prop :=
  match r with
  | Return st => cursect st = None -> s' = s
  | Raise e => is_MissingSectionHeaderError e = true -> s' = s
  | Unmodelled => True
  end.

(** A line that [_read] skips before the first section header: it is
    empty once stripped, or it is a comment. *)
Definition skipped_line (line : string) : bool :=
  (if is_comment line then "" else strip line) =? "".

(** Every section of the parser in [s] is a section of the parser in
    [s']. *)
Definition sections_kept (s s' : ConfigParser * World) : Prop :=
  incl (dict_keys (_sections (fst s))) (dict_keys (_sections (fst s'))).

(** The option names of a dict are in lower case. *)
Definition lower_keys {V} (d : list (string * V)) : Prop :=
  Forall (fun kv => lower (fst kv) = fst kv) d.

(** The option names of the parser are in lower case, in every section
    and in the defaults. *)
Definition option_names_lower (cfg : ConfigParser) : Prop :=
  Forall (fun sd => lower_keys (snd sd)) (_sections cfg)
  /\ lower_keys (_defaults cfg).

(** [LoaderError.__repr__], which is [__str__] too: the message of the
    error; [None] for an exception that is not a [LoaderError]. *)
Definition LoaderError__repr__ (e : Exn) : option string :=
  match e with
  | NoLoaderFoundError _ msg => Some msg
  | NoTargetFileExtensionsError msg => Some msg
  | _ => None
  end.

(** The parser has no section named as the default section. *)
Definition no_default_section (cfg : ConfigParser) : Prop :=
  ~ In default_section (dict_keys (_sections cfg)).

(** * Properties *)

(** Case analysis on the scrutinees of a hypothesis, innermost first. *)
Ltac reduce_in H :=
  cbn -[read_header read_option cursect_append cursect_setitem
        cursect_getitem match_header match_option is_comment strip
        optionxform rstrip lstrip String.eqb Nat.ltb] in H.

Ltac split_matches H :=
  reduce_in H;
  repeat (match type of H with
          | context [match ?x with _ => _ end] =>
              lazymatch x with
              | context [match _ with _ => _ end] => fail
              | _ => let E := fresh "E" in destruct x eqn:E
              end
          end;
          reduce_in H).


(** ** Membership and the scan of the subclasses *)

Lemma in_list_In (x : string) (l : list string) :
  in_list x l = true <-> In x l.
Proof.
  unfold in_list. rewrite existsb_exists. split.
  - intros [y [Hy Heq]]. apply String.eqb_eq in Heq. now subst.
  - intros H. exists x. split; [assumption | apply String.eqb_refl].
Qed.

Lemma in_list_not_In (x : string) (l : list string) :
  in_list x l = false <-> ~ In x l.
Proof.
  rewrite <- in_list_In. destruct (in_list x l); split; intros H;
    try reflexivity; try discriminate; try (intros H'; discriminate).
  exfalso. now apply H.
Qed.

Lemma check_extension_supported_cases (cls : LoaderClass) (x : string) :
  check_extension_supported cls x
  = if in_list x (_SUPPORTED_EXTS cls) then PyBool true else PyNone.
Proof. reflexivity. Qed.

Lemma check_extension_supported_truthy (cls : LoaderClass) (x : string) :
  truthy (check_extension_supported cls x) = true
  <-> check_extension_supported cls x = PyBool true.
Proof.
  unfold check_extension_supported.
  destruct (in_list x (_SUPPORTED_EXTS cls)); simpl; split; intros H;
    try reflexivity; discriminate.
Qed.

(** The scan returns an instance of the first class that supports the
    extension, and does nothing else. *)
Lemma scan_loaders_found (classes : list LoaderClass) (x : string)
    (s : LoaderFactory * World) :
  supported_by classes x ->
  exists cls,
    In cls classes
    /\ check_extension_supported cls x = PyBool true
    /\ scan_loaders classes x s = (Return (Some (instantiate cls)), s).
Proof.
  induction classes as [| c rest IH]; intros [cls [Hin Hsup]].
  - destruct Hin.
  - simpl. destruct (truthy (check_extension_supported c x)) eqn:Hc.
    + exists c. split; [now left |].
      split; [now apply check_extension_supported_truthy | reflexivity].
    + destruct Hin as [-> | Hin].
      * apply check_extension_supported_truthy in Hsup. congruence.
      * destruct IH as [cls' [Hin' [Hsup' Hscan]]].
        { exists cls. now split. }
        exists cls'. split; [now right |]. now split.
Qed.

(** With no supporting class the scan builds the error, which prints its
    message, and raises it. *)
Lemma scan_loaders_not_found (classes : list LoaderClass) (x : string)
    (f : LoaderFactory) (w : World) :
  ~ supported_by classes x ->
  scan_loaders classes x (f, w)
  = (Raise (NoLoaderFoundError x (NoLoaderFoundError_msg x)),
     (f, log (Printed (NoLoaderFoundError_msg x)) w)).
Proof.
  induction classes as [| c rest IH]; intros Hno.
  - reflexivity.
  - simpl. destruct (truthy (check_extension_supported c x)) eqn:Hc.
    + exfalso. apply Hno. exists c. split; [now left |].
      now apply check_extension_supported_truthy.
    + apply IH. intros [cls [Hin Hsup]]. apply Hno.
      exists cls. split; [now right | assumption].
Qed.

(** [get_loader] on a factory whose stored set is a collection. *)
Lemma get_loader_stored (f : LoaderFactory) (l : list string) (x : string)
    (w : World) :
  stored_items f = Some l ->
  get_loader x (f, w)
  = if in_list x l then scan_loaders Loader__subclasses__ x (f, w)
    else (Return None, (f, w)).
Proof.
  destruct f as [[v |]]; unfold stored_items; simpl; [| discriminate].
  destruct v; simpl; try discriminate; intros [= ->];
    unfold get_loader, bind, target_file_exts, get_self, lift; simpl;
    destruct (in_list x l); reflexivity.
Qed.

(** Construction with a non-empty collection stores the collection. *)
Lemma new_LoaderFactory_collection (v : PyVal) (l : list string) (w : World) :
  collection_items v = Some l -> l <> [] ->
  new_LoaderFactory v w = (Return {| _target_file_exts := Some v |}, w).
Proof.
  destruct v; simpl; try discriminate; intros [= ->] Hne;
    destruct l; try contradiction; reflexivity.
Qed.

(** ** The factory *)

(** C1: a factory constructed with a non-empty collection [E] resolves every
    extension of [E] that some subclass of [Loader] supports to an instance
    of a subclass whose [check_extension_supported] is [True] for it. *)
Theorem get_loader_supported (v : PyVal) (E : list string) (x : string)
    (w : World) :
  collection_items v = Some E -> E <> [] -> In x E ->
  supported_by Loader__subclasses__ x ->
  exists f loader,
    new_LoaderFactory v w = (Return f, w)
    /\ get_loader x (f, w) = (Return (Some loader), (f, w))
    /\ In (class_of loader) Loader__subclasses__
    /\ check_extension_supported (class_of loader) x = PyBool true.
Proof.
  intros Hv Hne Hx Hsup.
  exists {| _target_file_exts := Some v |}.
  destruct (scan_loaders_found Loader__subclasses__ x
              ({| _target_file_exts := Some v |}, w) Hsup)
    as [cls [Hin [Hcls Hscan]]].
  exists (instantiate cls). split.
  - now apply new_LoaderFactory_collection with (l := E).
  - rewrite (get_loader_stored _ E); [| unfold stored_items; simpl; exact Hv].
    apply in_list_In in Hx. rewrite Hx.
    split; [exact Hscan |]. destruct cls; split; simpl; auto.
Qed.

Lemma get_loader_supported_witness :
  exists f loader,
    new_LoaderFactory target_file_extensions empty_world
    = (Return f, empty_world)
    /\ get_loader ".yml" (f, empty_world)
       = (Return (Some loader), (f, empty_world))
    /\ In (class_of loader) Loader__subclasses__
    /\ check_extension_supported (class_of loader) ".yml" = PyBool true.
Proof.
  apply (get_loader_supported target_file_extensions
           [".yml"; ".yaml"; ".ini"] ".yml" empty_world).
  - reflexivity.
  - discriminate.
  - simpl. auto.
  - exists YamlLoader. split; [simpl; auto | reflexivity].
Defined.

(** C2: for an extension of the stored set that no subclass supports,
    [get_loader] raises [NoLoaderFoundError] carrying the extension; this
    is not the [None] it returns for an extension that is not targeted. *)
Theorem get_loader_no_loader (f : LoaderFactory) (E : list string)
    (z : string) (w : World) :
  stored_items f = Some E -> In z E ->
  ~ supported_by Loader__subclasses__ z ->
  get_loader z (f, w)
  = (Raise (NoLoaderFoundError z (NoLoaderFoundError_msg z)),
     (f, log (Printed (NoLoaderFoundError_msg z)) w))
  /\ fst (get_loader z (f, w)) <> Return None.
Proof.
  intros Hf Hz Hno.
  assert (Hget : get_loader z (f, w)
                 = (Raise (NoLoaderFoundError z (NoLoaderFoundError_msg z)),
                    (f, log (Printed (NoLoaderFoundError_msg z)) w))).
  { rewrite (get_loader_stored f E) by exact Hf.
    apply in_list_In in Hz. rewrite Hz.
    now apply scan_loaders_not_found. }
  split; [exact Hget |]. rewrite Hget. discriminate.
Qed.

Lemma not_supported_noloader :
  ~ supported_by Loader__subclasses__ ".noloader".
Proof.
  intros [cls [Hin Hsup]]. destruct cls; discriminate.
Qed.

Lemma get_loader_no_loader_witness :
  get_loader ".noloader" (noloader_factory, empty_world)
  = (Raise (NoLoaderFoundError ".noloader"
              (NoLoaderFoundError_msg ".noloader")),
     (noloader_factory,
      log (Printed (NoLoaderFoundError_msg ".noloader")) empty_world))
  /\ fst (get_loader ".noloader" (noloader_factory, empty_world))
     <> Return None.
Proof.
  apply (get_loader_no_loader noloader_factory [".noloader"]).
  - reflexivity.
  - simpl. auto.
  - exact not_supported_noloader.
Defined.

(** C3: for an extension outside the stored set [get_loader] returns [None]
    and does not raise, whether or not a subclass supports the extension. *)
Theorem get_loader_not_targeted (f : LoaderFactory) (E : list string)
    (y : string) (w : World) :
  stored_items f = Some E -> ~ In y E ->
  get_loader y (f, w) = (Return None, (f, w)).
Proof.
  intros Hf Hy. rewrite (get_loader_stored f E) by exact Hf.
  apply in_list_not_In in Hy. now rewrite Hy.
Qed.

Lemma get_loader_not_targeted_witness :
  get_loader ".ini" (noloader_factory, empty_world)
  = (Return None, (noloader_factory, empty_world)).
Proof.
  apply (get_loader_not_targeted noloader_factory [".noloader"]).
  - reflexivity.
  - simpl. intros [H | []]. discriminate.
Defined.

(** C4: constructing a factory with an empty or falsy value, or setting
    such a value on an existing factory, raises
    [NoTargetFileExtensionsError]. *)
Theorem empty_target_file_exts_rejected (v : PyVal) (w : World) :
  truthy v = false ->
  new_LoaderFactory v w
  = (Raise (NoTargetFileExtensionsError NoTargetFileExtensionsError_msg),
     log (Printed NoTargetFileExtensionsError_msg) w)
  /\ forall f : LoaderFactory,
       set_target_file_exts v (f, w)
       = (Raise (NoTargetFileExtensionsError NoTargetFileExtensionsError_msg),
          (f, log (Printed NoTargetFileExtensionsError_msg) w)).
Proof.
  intros Hv.
  assert (Hset : forall f : LoaderFactory,
             set_target_file_exts v (f, w)
             = (Raise (NoTargetFileExtensionsError
                         NoTargetFileExtensionsError_msg),
                (f, log (Printed NoTargetFileExtensionsError_msg) w))).
  { intros f. unfold set_target_file_exts. rewrite Hv. reflexivity. }
  split; [| exact Hset].
  unfold new_LoaderFactory, LoaderFactory__init__. now rewrite Hset.
Qed.

Lemma empty_target_file_exts_rejected_witness :
  new_LoaderFactory (PyList []) empty_world
  = (Raise (NoTargetFileExtensionsError NoTargetFileExtensionsError_msg),
     log (Printed NoTargetFileExtensionsError_msg) empty_world)
  /\ forall f : LoaderFactory,
       set_target_file_exts (PyList []) (f, empty_world)
       = (Raise (NoTargetFileExtensionsError NoTargetFileExtensionsError_msg),
          (f, log (Printed NoTargetFileExtensionsError_msg) empty_world)).
Proof.
  apply (empty_target_file_exts_rejected (PyList []) empty_world).
  reflexivity.
Defined.

(** C9: the setter validates as the constructor does, and either stores the
    normalized new value or raises [NoTargetFileExtensionsError] and leaves
    the stored value as it was. *)
Theorem set_target_file_exts_atomic (f : LoaderFactory) (v : PyVal)
    (w : World) :
  set_target_file_exts v (f, w)
  = (if truthy v
     then (Return tt, ({| _target_file_exts := Some (normalized v) |}, w))
     else (Raise (NoTargetFileExtensionsError NoTargetFileExtensionsError_msg),
           (f, log (Printed NoTargetFileExtensionsError_msg) w)))
  /\ new_LoaderFactory v w
     = (if truthy v
        then (Return {| _target_file_exts := Some (normalized v) |}, w)
        else (Raise (NoTargetFileExtensionsError
                       NoTargetFileExtensionsError_msg),
              log (Printed NoTargetFileExtensionsError_msg) w)).
Proof.
  unfold new_LoaderFactory, LoaderFactory__init__, set_target_file_exts.
  destruct (truthy v) eqn:Hv; simpl.
  - destruct w as [fs tr]. destruct v; split; reflexivity.
  - split; reflexivity.
Qed.

(** C10: a factory constructed with a bare non-empty string, such as
    ['.yml'], stores the one-element list of that string, and the property
    [target_file_exts] reads it back. *)
Theorem bare_string_is_wrapped (s : string) (w : World) :
  s <> "" ->
  exists f,
    new_LoaderFactory (PyStr s) w = (Return f, w)
    /\ _target_file_exts f = Some (PyList [s])
    /\ target_file_exts (f, w) = (Return (PyList [s]), (f, w)).
Proof.
  intros Hs. exists {| _target_file_exts := Some (PyList [s]) |}.
  unfold new_LoaderFactory, LoaderFactory__init__, set_target_file_exts.
  assert (Ht : truthy (PyStr s) = true).
  { simpl. destruct (String.eqb_spec s ""); [contradiction | reflexivity]. }
  rewrite Ht. destruct w as [fs tr]. repeat split.
Qed.

Lemma bare_string_is_wrapped_witness :
  exists f,
    new_LoaderFactory (PyStr ".yml") empty_world = (Return f, empty_world)
    /\ _target_file_exts f = Some (PyList [".yml"])
    /\ target_file_exts (f, empty_world)
       = (Return (PyList [".yml"]), (f, empty_world)).
Proof.
  apply (bare_string_is_wrapped ".yml" empty_world). discriminate.
Defined.

(** The scan has one outcome for a given extension, whatever the world,
    and changes the world by the printed message of the error only. *)
Lemma scan_loaders_effects (classes : list LoaderClass) (x : string)
    (f : LoaderFactory) :
  exists r,
    forall w, scan_loaders classes x (f, w) = (r, (f, world_after r w)).
Proof.
  induction classes as [| c rest [r IH]].
  - exists (Raise (NoLoaderFoundError x (NoLoaderFoundError_msg x))).
    reflexivity.
  - simpl. destruct (truthy (check_extension_supported c x)).
    + exists (Return (Some (instantiate c))). reflexivity.
    + exists r. exact IH.
Qed.

(** C8, as the code has it: the outcome of [get_loader] is a function of
    the stored value and the extension, the factory is left as it was, and
    the one effect on the world is the line that a [NoLoaderFoundError]
    prints when it is built. *)
Theorem get_loader_effects (f : LoaderFactory) (x : string) :
  exists r,
    forall w, get_loader x (f, w) = (r, (f, world_after r w)).
Proof.
  destruct f as [[v |]].
  - destruct v as [| b | s | l | l].
    + exists (Raise TypeError). reflexivity.
    + exists (Raise TypeError). reflexivity.
    + destruct (in_str x s) eqn:Hin.
      * destruct (scan_loaders_effects Loader__subclasses__ x
                    {| _target_file_exts := Some (PyStr s) |}) as [r Hr].
        exists r. intros w.
        unfold get_loader, bind, target_file_exts, get_self, lift; simpl.
        rewrite Hin. simpl. exact (Hr w).
      * exists (Return None). intros w.
        unfold get_loader, bind, target_file_exts, get_self, lift; simpl.
        rewrite Hin. reflexivity.
    + destruct (scan_loaders_effects Loader__subclasses__ x
                  {| _target_file_exts := Some (PyList l) |}) as [r Hr].
      destruct (in_list x l) eqn:Hin.
      * exists r. intros w.
        rewrite (get_loader_stored _ l) by reflexivity. rewrite Hin.
        exact (Hr w).
      * exists (Return None). intros w.
        rewrite (get_loader_stored _ l) by reflexivity. now rewrite Hin.
    + destruct (scan_loaders_effects Loader__subclasses__ x
                  {| _target_file_exts := Some (PyTuple l) |}) as [r Hr].
      destruct (in_list x l) eqn:Hin.
      * exists r. intros w.
        rewrite (get_loader_stored _ l) by reflexivity. rewrite Hin.
        exact (Hr w).
      * exists (Return None). intros w.
        rewrite (get_loader_stored _ l) by reflexivity. now rewrite Hin.
  - exists (Raise AttributeError). reflexivity.
Qed.

(** C8 as stated fails: on the factory [LoaderFactory('.noloader')] the call
    [get_loader('.noloader')] changes the world, it writes the message of the
    error to standard output. *)
Lemma get_loader_prints :
  snd (get_loader ".noloader" (noloader_factory, empty_world))
  <> (noloader_factory, empty_world)
  /\ stdout empty_world = []
  /\ stdout (snd (snd (get_loader ".noloader"
                         (noloader_factory, empty_world))))
     = ["No loader found for file extension `.noloader` in LoaderFactory."].
Proof.
  split; [| split]; try reflexivity. vm_compute. discriminate.
Qed.

(** ** The loaders *)

(** C6 fails on the code: for an extension that a class does not list,
    [check_extension_supported] returns [None], which is not the boolean
    [False]; no call of the method returns [False]. *)
Theorem check_extension_supported_returns_None :
  check_extension_supported YamlLoader ".ini" = PyNone
  /\ forall (cls : LoaderClass) (e : string),
       check_extension_supported cls e
       = (if in_list e (_SUPPORTED_EXTS cls) then PyBool true else PyNone)
       /\ check_extension_supported cls e <> PyBool false.
Proof.
  split; [reflexivity |]. intros cls e. split; [reflexivity |].
  unfold check_extension_supported.
  destruct (in_list e (_SUPPORTED_EXTS cls)); discriminate.
Qed.

(** ** A missing section header leaves the parser as it was *)

Lemma cursect_setitem_outcome (c : Cursect) (k : string) (v : OptVal)
    (s s' : ConfigParser * World) (r : Outcome unit) :
  cursect_setitem c k v s = (r, s') -> forall e, r <> Raise e.
Proof.
  unfold cursect_setitem, bind, get_self, put_self, unmodelled.
  intros H. split_matches H. all: inversion H; subst. all: try (intros e0; discriminate).
Qed.

Lemma cursect_append_outcome (c : Cursect) (k line : string)
    (s s' : ConfigParser * World) (r : Outcome unit) :
  cursect_append c k line s = (r, s') -> forall e, r <> Raise e.
Proof.
  unfold cursect_append, cursect_getitem, bind, get_self, ret, unmodelled.
  intros H. split_matches H.
  all: try solve [inversion H; subst; intros e0; discriminate].
  all: eapply cursect_setitem_outcome; eassumption.
Qed.

Lemma read_header_outcome (fpname : string) (lineno : nat) (name : string)
    (st : Locals) (s s' : ConfigParser * World) (r : Outcome Locals) :
  read_header fpname lineno name st s = (r, s') -> in_section_outcome r.
Proof.
  unfold read_header, bind, get_self, put_self, ret, raise.
  intros H. split_matches H; inversion H; subst; simpl;
    discriminate || reflexivity.
Qed.

Lemma read_option_outcome (fpname : string) (lineno : nat) (value : string)
    (c : Cursect) (st : Locals) (s s' : ConfigParser * World)
    (r : Outcome Locals) :
  cursect st <> None ->
  read_option fpname lineno value c st s = (r, s') -> in_section_outcome r.
Proof.
  unfold read_option, bind, ret, raise, unmodelled.
  intros Hst H. split_matches H; inversion H; subst; simpl;
    try assumption; try reflexivity; try exact I.
  all: exfalso;
    eapply cursect_setitem_outcome; [eassumption | reflexivity].
Qed.

Lemma read_line_in_section (fpname : string) (lineno : nat) (line : string)
    (st : Locals) (s s' : ConfigParser * World) (r : Outcome Locals) :
  cursect st <> None ->
  read_line fpname lineno line st s = (r, s') -> in_section_outcome r.
Proof.
  intros Hst H. unfold read_line in H.
  destruct (cursect st) as [c |] eqn:Hc; [| contradiction].
  unfold bind, ret, unmodelled in H. split_matches H.
  all: try solve [inversion H; subst; simpl;
                  first [exact I | rewrite Hc; discriminate]].
  all: try solve [exfalso; eapply cursect_append_outcome;
                  [eassumption | reflexivity]].
  all: try solve [eapply read_header_outcome; eassumption].
  all: eapply read_option_outcome; [| eassumption]; simpl; discriminate.
Qed.

Lemma read_lines_in_section (fpname : string) (lines : list string) :
  forall (lineno : nat) (st : Locals) (s s' : ConfigParser * World)
         (r : Outcome Locals),
    cursect st <> None ->
    read_lines fpname lineno lines st s = (r, s') -> in_section_outcome r.
Proof.
  induction lines as [| line rest IH]; intros lineno st s s' r Hst H.
  - inversion H; subst. exact Hst.
  - simpl in H. unfold bind in H.
    destruct (read_line fpname lineno line st s) as [[st1 | e1 |] s1] eqn:E.
    + apply (IH _ _ _ _ _ (read_line_in_section _ _ _ _ _ _ _ Hst E) H).
    + inversion H; subst.
      exact (read_line_in_section _ _ _ _ _ _ _ Hst E).
    + inversion H; subst. exact I.
Qed.

Lemma read_line_before_section (fpname : string) (lineno : nat)
    (line : string) (st : Locals) (s s' : ConfigParser * World)
    (r : Outcome Locals) :
  cursect st = None ->
  read_line fpname lineno line st s = (r, s') ->
  before_section_outcome s s' r.
Proof.
  intros Hc H. unfold read_line in H. rewrite Hc in H.
  unfold bind, ret, raise, unmodelled in H. split_matches H.
  all: try solve [inversion H; subst; simpl; first [exact I | reflexivity]].
  all: pose proof (read_header_outcome _ _ _ _ _ _ _ H) as Hh;
    destruct r; simpl in *; congruence.
Qed.

Lemma read_lines_missing_header (fpname : string) (lines : list string) :
  forall (lineno : nat) (st : Locals) (s s' : ConfigParser * World)
         (e : Exn),
    cursect st = None ->
    read_lines fpname lineno lines st s = (Raise e, s') ->
    is_MissingSectionHeaderError e = true ->
    s' = s.
Proof.
  induction lines as [| line rest IH]; intros lineno st s s' e Hc H He.
  - discriminate.
  - simpl in H. unfold bind in H.
    destruct (read_line fpname lineno line st s) as [[st1 | e1 |] s1] eqn:E.
    + pose proof (read_line_before_section _ _ _ _ _ _ _ Hc E) as Hb.
      simpl in Hb. destruct (cursect st1) as [c |] eqn:Hc1.
      * assert (Hin : cursect st1 <> None) by (rewrite Hc1; discriminate).
        pose proof (read_lines_in_section _ _ _ _ _ _ _ Hin H) as Hs.
        simpl in Hs. congruence.
      * rewrite <- (Hb eq_refl). exact (IH _ _ _ _ _ Hc1 H He).
    + inversion H; subst.
      exact (read_line_before_section _ _ _ _ _ _ _ Hc E He).
    + discriminate.
Qed.

(** [_read] that raises [MissingSectionHeaderError] has changed neither the
    parser nor the world. *)
Lemma _read_missing_header (content fpname : string)
    (s s' : ConfigParser * World) (e : Exn) :
  _read content fpname s = (Raise e, s') ->
  is_MissingSectionHeaderError e = true ->
  s' = s.
Proof.
  unfold _read. destruct (supported_text content); [| discriminate].
  simpl. unfold bind at 1.
  destruct (read_lines fpname 1 (readlines content) _ s)
    as [[st1 | e1 |] s1] eqn:E; intros H He.
  - unfold bind, _join_multiline_values, get_self, put_self in H.
    simpl in H. destruct (configparser.e st1); inversion H; subst.
    discriminate.
  - inversion H; subst.
    eapply read_lines_missing_header; [| exact E | exact He]. reflexivity.
  - discriminate.
Qed.

(** ** IniLoader *)

Lemma files_log (e : Event) (w : World) : files (log e w) = files w.
Proof. reflexivity. Qed.

Lemma trace_log (e : Event) (w : World) : trace (log e w) = (trace w ++ [e])%list.
Proof. reflexivity. Qed.

(** [read] on a file that exists is [_read] on its content. *)
Lemma read_found (path content : string) (cfg : ConfigParser) (w : World) :
  dict_get path (files w) = Some content ->
  read path (cfg, w)
  = match _read content path
            (cfg, log (Opened path) (log (ConfigRead path) w)) with
    | (Return _, s) => (Return [path], s)
    | (Raise e, s) => if is_OSError e then (Return [], s) else (Raise e, s)
    | (Unmodelled, s) => (Unmodelled, s)
    end.
Proof.
  intros H. unfold read, try_except, open. unfold bind, emit, get_world.
  cbn [fst snd]. rewrite !files_log, H. unfold ret.
  destruct (_read content path _) as [[a | e | ] s]; reflexivity.
Qed.

(** [_add_section_head] on a file that exists parses the header and the
    content of the file as one text. *)
Lemma _add_section_head_found (path content : string) (cfg : ConfigParser)
    (w : World) :
  dict_get path (files w) = Some content ->
  _add_section_head path (cfg, w)
  = read_string ("[__headless__]" ++ nl ++ content)
      (cfg, log (Opened path) w).
Proof.
  intros H.
  unfold _add_section_head, open. unfold bind, emit, get_world.
  cbn [fst snd]. rewrite !files_log, H. reflexivity.
Qed.

(** [read] raises [MissingSectionHeaderError] on a file that exists only,
    and leaves the parser as it was. *)
Lemma read_missing_header (path : string) (cfg : ConfigParser) (w : World)
    (e : Exn) (s1 : ConfigParser * World) :
  read path (cfg, w) = (Raise e, s1) ->
  is_MissingSectionHeaderError e = true ->
  exists content,
    dict_get path (files w) = Some content
    /\ s1 = (cfg, log (Opened path) (log (ConfigRead path) w)).
Proof.
  intros H He. destruct (dict_get path (files w)) as [content |] eqn:Hf.
  - exists content. split; [reflexivity |].
    rewrite (read_found path content) in H by exact Hf.
    destruct (_read content path _) as [[u | e1 |] s2] eqn:E.
    + discriminate.
    + destruct (is_OSError e1); [discriminate |]. inversion H; subst.
      exact (_read_missing_header _ _ _ _ _ E He).
    + discriminate.
  - exfalso. revert H. unfold read, try_except, open.
    unfold bind, emit, get_world. cbn [fst snd]. rewrite !files_log, Hf.
    discriminate.
Qed.

(** X5: the repair path.  When [read] fails for the missing header, [load] is
    one parse of the header line and the content of the file, on the
    parser as it was before [load], followed by the dict of the parser. *)
Lemma missing_header_is_repaired (path : string) (cfg : ConfigParser)
    (w : World) (e : Exn) (s1 : ConfigParser * World) :
  read path (cfg, w) = (Raise e, s1) ->
  is_MissingSectionHeaderError e = true ->
  exists content,
    dict_get path (files w) = Some content
    /\ IniLoader_load path (cfg, w)
       = (read_string ("[__headless__]" ++ nl ++ content) ;;; config_as_dict)
           (cfg, log (Opened path) (log (Opened path)
                                      (log (ConfigRead path) w))).
Proof.
  intros H He.
  destruct (read_missing_header _ _ _ _ _ H He) as [content [Hf ->]].
  exists content. split; [exact Hf |].
  unfold IniLoader_load. unfold bind at 1 3. unfold try_except.
  unfold bind at 1. rewrite H, He.
  rewrite (_add_section_head_found path content)
    by (rewrite !files_log; exact Hf).
  reflexivity.
Qed.

(** C5: on a new [IniLoader], loading a file that holds the line
    [key=value] and no section header fails in [read] for the missing
    header, parses once more the text made of the line [[__headless__]] and
    the content of the file, and returns the
    mapping of [__headless__] to the mapping of [key] to [value]. *)
Theorem headless_ini_is_repaired (path content : string) (w : World) :
  dict_get path (files w) = Some content ->
  content = "key=value" \/ content = "key=value" ++ nl ->
  fst (read path (ConfigParser__init__, w))
  = Raise (MissingSectionHeaderError path 1 content)
  /\ exists w',
       IniLoader_load path (ConfigParser__init__, w)
       = (Return [("__headless__", [("key", "value")])],
          ({| _sections := [("__headless__", [("key", Joined "value")])];
              _defaults := [] |}, w'))
       /\ files w' = files w
       /\ trace w'
          = (trace w
             ++ [ConfigRead path; Opened path; Opened path;
                 ConfigReadString ("[__headless__]" ++ nl ++ content)])%list.
Proof.
  intros H Hc. split.
  - rewrite (read_found path content) by exact H.
    destruct Hc as [-> | ->]; reflexivity.
  - exists (log (ConfigReadString ("[__headless__]" ++ nl ++ content))
              (log (Opened path) (log (Opened path) (log (ConfigRead path) w)))).
    split; [| split].
    + unfold IniLoader_load. unfold bind at 1. unfold try_except.
      unfold bind at 1. rewrite (read_found path content) by exact H.
      destruct Hc as [-> | ->].
      * vm_compute (_read "key=value" _ _). cbn iota beta.
        cbn [is_OSError is_MissingSectionHeaderError]. cbn iota.
        rewrite (_add_section_head_found path "key=value") by exact H.
        reflexivity.
      * vm_compute (_read ("key=value" ++ nl) _ _). cbn iota beta.
        cbn [is_OSError is_MissingSectionHeaderError]. cbn iota.
        rewrite (_add_section_head_found path ("key=value" ++ nl)) by exact H.
        reflexivity.
    + reflexivity.
    + rewrite !trace_log, <- !app_assoc. reflexivity.
Qed.

Lemma headless_ini_is_repaired_witness :
  fst (read "settings.ini"
         (ConfigParser__init__,
          {| files := [("settings.ini", "key=value")]; trace := [] |}))
  = Raise (MissingSectionHeaderError "settings.ini" 1 "key=value")
  /\ exists w',
       IniLoader_load "settings.ini"
         (ConfigParser__init__,
          {| files := [("settings.ini", "key=value")]; trace := [] |})
       = (Return [("__headless__", [("key", "value")])],
          ({| _sections := [("__headless__", [("key", Joined "value")])];
              _defaults := [] |}, w'))
       /\ files w' = [("settings.ini", "key=value")]
       /\ trace w'
          = [ConfigRead "settings.ini"; Opened "settings.ini";
             Opened "settings.ini";
             ConfigReadString ("[__headless__]" ++ nl ++ "key=value")].
Proof.
  apply (headless_ini_is_repaired "settings.ini" "key=value"
           {| files := [("settings.ini", "key=value")]; trace := [] |}).
  - reflexivity.
  - left. reflexivity.
Defined.

(** C7 fails on the code: the parser of an [IniLoader] keeps the sections
    of the files it has read.  Loading [b.ini] on a new loader returns the
    section [b]; loading it after [a.ini] on the same loader returns the
    sections [a] and [b]. *)
Theorem IniLoader_load_keeps_sections :
  fst (IniLoader_load "b.ini" (ConfigParser__init__, two_files_world))
  = Return [("b", [("y", "2")])]
  /\ fst (IniLoader_load "b.ini"
            (snd (IniLoader_load "a.ini"
                    (ConfigParser__init__, two_files_world))))
     = Return [("a", [("x", "1")]); ("b", [("y", "2")])]
  /\ files (snd (snd (IniLoader_load "a.ini"
                        (ConfigParser__init__, two_files_world))))
     = files two_files_world.
Proof. repeat split; vm_compute; reflexivity. Qed.

(** * Further properties *)

(** ** The factory *)

(** X1: the resolution table.  On a factory whose stored set holds the
    extension, [get_loader] returns a [YamlLoader] for [.yml] and [.yaml],
    an [IniLoader] with a new parser for [.ini] and [.config], and raises
    [NoLoaderFoundError] for every other extension; the comparison is
    equality of strings. *)
Theorem get_loader_table (f : LoaderFactory) (E : list string) (x : string)
    (w : World) :
  stored_items f = Some E -> In x E ->
  get_loader x (f, w)
  = if in_list x [".yml"; ".yaml"]
    then (Return (Some YamlLoaderObj), (f, w))
    else if in_list x [".ini"; ".config"]
    then (Return (Some (IniLoaderObj ConfigParser__init__)), (f, w))
    else (Raise (NoLoaderFoundError x (NoLoaderFoundError_msg x)),
          (f, log (Printed (NoLoaderFoundError_msg x)) w)).
Proof.
  intros Hf Hx. rewrite (get_loader_stored f E) by exact Hf.
  apply in_list_In in Hx. rewrite Hx.
  unfold Loader__subclasses__, scan_loaders, check_extension_supported.
  cbn [_SUPPORTED_EXTS].
  destruct (in_list x [".yml"; ".yaml"]); [reflexivity |].
  destruct (in_list x [".ini"; ".config"]); reflexivity.
Qed.

Lemma get_loader_table_witness :
  get_loader ".config"
    ({| _target_file_exts := Some (PyTuple [".config"; ".CONFIG"]) |},
     empty_world)
  = if in_list ".config" [".yml"; ".yaml"]
    then (Return (Some YamlLoaderObj),
          ({| _target_file_exts := Some (PyTuple [".config"; ".CONFIG"]) |},
           empty_world))
    else if in_list ".config" [".ini"; ".config"]
    then (Return (Some (IniLoaderObj ConfigParser__init__)),
          ({| _target_file_exts := Some (PyTuple [".config"; ".CONFIG"]) |},
           empty_world))
    else (Raise (NoLoaderFoundError ".config"
                   (NoLoaderFoundError_msg ".config")),
          ({| _target_file_exts := Some (PyTuple [".config"; ".CONFIG"]) |},
           log (Printed (NoLoaderFoundError_msg ".config")) empty_world)).
Proof.
  apply (get_loader_table
           {| _target_file_exts := Some (PyTuple [".config"; ".CONFIG"]) |}
           [".config"; ".CONFIG"] ".config" empty_world).
  - reflexivity.
  - simpl. auto.
Defined.

(** X2: what the setter stores.  After a call of the setter that returns,
    the stored value is truthy and is not a bare string, and nothing has
    been printed. *)
Theorem stored_value_invariant (v : PyVal) (f f' : LoaderFactory)
    (w w' : World) :
  set_target_file_exts v (f, w) = (Return tt, (f', w')) ->
  w' = w
  /\ exists v',
       _target_file_exts f' = Some v'
       /\ truthy v' = true
       /\ forall s, v' <> PyStr s.
Proof.
  unfold set_target_file_exts. destruct (truthy v) eqn:Hv; simpl.
  - unfold put_self. simpl. intros H. inversion H; subst. split.
    + destruct w'; reflexivity.
    + destruct v; simpl in *; try discriminate;
        eexists; (split; [reflexivity |]); (split; [assumption || reflexivity |]);
        intros s0; discriminate.
  - unfold bind, NoTargetFileExtensionsError__init__, LoaderError__init__,
      emit, ret, raise. simpl. discriminate.
Qed.

Lemma stored_value_invariant_witness :
  empty_world = empty_world
  /\ exists v',
       _target_file_exts {| _target_file_exts := Some (PyList [".ini"]) |}
       = Some v'
       /\ truthy v' = true
       /\ forall s, v' <> PyStr s.
Proof.
  apply (stored_value_invariant (PyStr ".ini") noloader_factory
           {| _target_file_exts := Some (PyList [".ini"]) |}
           empty_world empty_world).
  reflexivity.
Defined.

(** X3: a factory constructed with a bare string targets that string
    only.  The string is stored as a one-element list, so an extension that
    merely occurs inside it is not targeted and resolves to [None]. *)
Theorem bare_string_targets_itself_only (s x : string) (w : World) :
  s <> "" -> x <> s ->
  exists f,
    new_LoaderFactory (PyStr s) w = (Return f, w)
    /\ get_loader x (f, w) = (Return None, (f, w)).
Proof.
  intros Hs Hx. exists {| _target_file_exts := Some (PyList [s]) |}. split.
  - unfold new_LoaderFactory, LoaderFactory__init__, set_target_file_exts.
    assert (Ht : truthy (PyStr s) = true).
    { simpl. destruct (String.eqb_spec s ""); [contradiction | reflexivity]. }
    rewrite Ht. destruct w; reflexivity.
  - rewrite (get_loader_stored _ [s]) by reflexivity.
    assert (Hin : in_list x [s] = false).
    { apply in_list_not_In. intros [H | []]. now apply Hx. }
    now rewrite Hin.
Qed.

Lemma bare_string_targets_itself_only_witness :
  exists f,
    new_LoaderFactory (PyStr ".yaml") empty_world = (Return f, empty_world)
    /\ get_loader ".y" (f, empty_world) = (Return None, (f, empty_world)).
Proof.
  apply (bare_string_targets_itself_only ".yaml" ".y" empty_world);
    discriminate.
Defined.

(** X4: reading the property and assigning the value back changes nothing
    on a constructed factory: the stored value passes the validation of the
    setter and is stored as it is. *)
Theorem target_file_exts_round_trip (v0 : PyVal) (f : LoaderFactory)
    (w0 w0' w : World) :
  new_LoaderFactory v0 w0 = (Return f, w0') ->
  (v <- target_file_exts ;; set_target_file_exts v) (f, w)
  = (Return tt, (f, w)).
Proof.
  unfold new_LoaderFactory, LoaderFactory__init__, set_target_file_exts.
  destruct (truthy v0) eqn:Hv; simpl.
  - unfold put_self. simpl. intros H. inversion H; subst.
    unfold bind, target_file_exts, get_self. simpl.
    destruct w as [fs tr].
    destruct v0 as [| b | s | l | l]; simpl in *; try discriminate.
    + rewrite Hv. reflexivity.
    + reflexivity.
    + rewrite Hv. reflexivity.
    + rewrite Hv. reflexivity.
  - unfold bind, NoTargetFileExtensionsError__init__, LoaderError__init__,
      emit, ret, raise. simpl. discriminate.
Qed.

Lemma target_file_exts_round_trip_witness :
  (v <- target_file_exts ;; set_target_file_exts v)
    (noloader_factory, empty_world)
  = (Return tt, (noloader_factory, empty_world)).
Proof.
  apply (target_file_exts_round_trip (PyStr ".noloader") noloader_factory
           empty_world empty_world empty_world).
  reflexivity.
Defined.

(** ** The loaders *)

Lemma missing_header_is_repaired_witness :
  exists content,
    dict_get "settings.ini" [("settings.ini", "key=value")] = Some content
    /\ IniLoader_load "settings.ini"
         (ConfigParser__init__,
          {| files := [("settings.ini", "key=value")]; trace := [] |})
       = (read_string ("[__headless__]" ++ nl ++ content) ;;; config_as_dict)
           (ConfigParser__init__,
            log (Opened "settings.ini")
              (log (Opened "settings.ini")
                 (log (ConfigRead "settings.ini")
                    {| files := [("settings.ini", "key=value")];
                       trace := [] |}))).
Proof.
  apply (missing_header_is_repaired "settings.ini" ConfigParser__init__
           {| files := [("settings.ini", "key=value")]; trace := [] |}
           (MissingSectionHeaderError "settings.ini" 1 "key=value")
           (ConfigParser__init__,
            log (Opened "settings.ini")
              (log (ConfigRead "settings.ini")
                 {| files := [("settings.ini", "key=value")];
                    trace := [] |}))).
  - reflexivity.
  - reflexivity.
Defined.

(** X6: a file that does not exist is no error for [IniLoader.load].
    [read] skips a file it cannot open, so [load] returns the dict of the
    parser as it is, which is empty on a new loader; the repair path, whose
    [open] would raise, is not taken. *)
Theorem IniLoader_load_missing_file (path : string) (cfg : ConfigParser)
    (w : World) :
  dict_get path (files w) = None ->
  IniLoader_load path (cfg, w)
  = config_as_dict (cfg, log (Opened path) (log (ConfigRead path) w))
  /\ IniLoader_load path (ConfigParser__init__, w)
     = (Return [],
        (ConfigParser__init__, log (Opened path) (log (ConfigRead path) w))).
Proof.
  intros H.
  assert (Hload : forall c,
             IniLoader_load path (c, w)
             = config_as_dict (c, log (Opened path) (log (ConfigRead path) w))).
  { intros c. unfold IniLoader_load. unfold bind at 1. unfold try_except.
    unfold bind at 1. unfold read, try_except, open.
    unfold bind, emit, get_world. cbn [fst snd]. rewrite !files_log, H.
    reflexivity. }
  split; [apply Hload |]. rewrite Hload. reflexivity.
Qed.

Lemma IniLoader_load_missing_file_witness :
  IniLoader_load "c.ini" (ConfigParser__init__, two_files_world)
  = config_as_dict
      (ConfigParser__init__,
       log (Opened "c.ini") (log (ConfigRead "c.ini") two_files_world))
  /\ IniLoader_load "c.ini" (ConfigParser__init__, two_files_world)
     = (Return [],
        (ConfigParser__init__,
         log (Opened "c.ini") (log (ConfigRead "c.ini") two_files_world))).
Proof.
  apply (IniLoader_load_missing_file "c.ini" ConfigParser__init__
           two_files_world).
  reflexivity.
Defined.


Lemma read_lines_skipped (fpname : string) (lines : list string) :
  forall (lineno : nat) (st : Locals) (s : ConfigParser * World),
    cursect st = None ->
    forallb skipped_line lines = true ->
    read_lines fpname lineno lines st s = (Return st, s).
Proof.
  induction lines as [| line rest IH]; intros lineno st s Hc Hl.
  - reflexivity.
  - simpl in Hl. apply andb_prop in Hl. destruct Hl as [Hline Hrest].
    simpl. unfold bind.
    assert (Hstep : read_line fpname lineno line st s = (Return st, s)).
    { unfold read_line. unfold skipped_line in Hline. rewrite Hline, Hc.
      destruct (is_comment line); reflexivity. }
    rewrite Hstep. now apply IH.
Qed.

(** X8: a file of blank lines and comments has no section header, and yet
    [read] accepts it: on a new loader [load] returns the empty dict and
    does not take the repair path. *)
Theorem IniLoader_load_blank_file (path content : string) (w : World) :
  dict_get path (files w) = Some content ->
  supported_text content = true ->
  forallb skipped_line (readlines content) = true ->
  IniLoader_load path (ConfigParser__init__, w)
  = (Return [],
     (ConfigParser__init__, log (Opened path) (log (ConfigRead path) w))).
Proof.
  intros Hf Hs Hl.
  unfold IniLoader_load. unfold bind at 1. unfold try_except.
  unfold bind at 1. rewrite (read_found path content) by exact Hf.
  assert (Hread : forall s, _read content path (ConfigParser__init__, s)
                            = (Return tt, (ConfigParser__init__, s))).
  { intros s. unfold _read. rewrite Hs. simpl. unfold bind at 1.
    rewrite read_lines_skipped by (reflexivity || exact Hl). reflexivity. }
  rewrite Hread. reflexivity.
Qed.

Lemma IniLoader_load_blank_file_witness :
  IniLoader_load "notes.ini"
    (ConfigParser__init__,
     {| files := [("notes.ini", "# nothing here" ++ nl ++ nl ++ "  ; yet")];
        trace := [] |})
  = (Return [],
     (ConfigParser__init__,
      log (Opened "notes.ini")
        (log (ConfigRead "notes.ini")
           {| files := [("notes.ini",
                         "# nothing here" ++ nl ++ nl ++ "  ; yet")];
              trace := [] |}))).
Proof.
  apply (IniLoader_load_blank_file "notes.ini"
           ("# nothing here" ++ nl ++ nl ++ "  ; yet")
           {| files := [("notes.ini", "# nothing here" ++ nl ++ nl ++ "  ; yet")];
              trace := [] |}); reflexivity.
Defined.

Lemma sections_kept_refl (s : ConfigParser * World) : sections_kept s s.
Proof. apply incl_refl. Qed.

Lemma sections_kept_trans (s1 s2 s3 : ConfigParser * World) :
  sections_kept s1 s2 -> sections_kept s2 s3 -> sections_kept s1 s3.
Proof. apply incl_tran. Qed.

Lemma dict_set_keeps_keys {V} (k : string) (v : V) (d : list (string * V)) :
  incl (dict_keys d) (dict_keys (dict_set k v d)).
Proof.
  induction d as [| [k' v'] d IH]; intros x Hx.
  - destruct Hx.
  - simpl. destruct (k' =? k) eqn:Hk.
    + apply String.eqb_eq in Hk. subst. exact Hx.
    + destruct Hx as [<- | Hx]; [now left | right; now apply IH].
Qed.

Lemma dict_set_has_key {V} (k : string) (v : V) (d : list (string * V)) :
  In k (dict_keys (dict_set k v d)).
Proof.
  induction d as [| [k' v'] d IH]; simpl.
  - now left.
  - destruct (k' =? k) eqn:Hk; simpl; [now left | now right].
Qed.

Lemma cursect_setitem_keeps (c : Cursect) (k : string) (v : OptVal)
    (s s' : ConfigParser * World) (r : Outcome unit) :
  cursect_setitem c k v s = (r, s') -> sections_kept s s'.
Proof.
  unfold cursect_setitem, bind, get_self, put_self, unmodelled.
  intros H. split_matches H; inversion H; subst; unfold sections_kept; simpl;
    first [apply incl_refl | apply dict_set_keeps_keys].
Qed.

Lemma cursect_append_keeps (c : Cursect) (k line : string)
    (s s' : ConfigParser * World) (r : Outcome unit) :
  cursect_append c k line s = (r, s') -> sections_kept s s'.
Proof.
  unfold cursect_append, cursect_getitem, bind, get_self, ret, unmodelled.
  intros H. split_matches H.
  all: try solve [inversion H; subst; apply sections_kept_refl].
  all: eapply cursect_setitem_keeps; eassumption.
Qed.

Lemma read_header_keeps (fpname : string) (lineno : nat) (name : string)
    (st : Locals) (s s' : ConfigParser * World) (r : Outcome Locals) :
  read_header fpname lineno name st s = (r, s') -> sections_kept s s'.
Proof.
  unfold read_header, bind, get_self, put_self, ret, raise.
  intros H. split_matches H; inversion H; subst; unfold sections_kept; simpl;
    first [apply incl_refl | apply dict_set_keeps_keys].
Qed.

Lemma read_option_keeps (fpname : string) (lineno : nat) (value : string)
    (c : Cursect) (st : Locals) (s s' : ConfigParser * World)
    (r : Outcome Locals) :
  read_option fpname lineno value c st s = (r, s') -> sections_kept s s'.
Proof.
  unfold read_option, bind, ret, raise, unmodelled.
  intros H. split_matches H.
  all: try solve [inversion H; subst; apply sections_kept_refl].
  all: inversion H; subst; eapply cursect_setitem_keeps; eassumption.
Qed.

Lemma read_line_keeps (fpname : string) (lineno : nat) (line : string)
    (st : Locals) (s s' : ConfigParser * World) (r : Outcome Locals) :
  read_line fpname lineno line st s = (r, s') -> sections_kept s s'.
Proof.
  intros H. unfold read_line in H.
  unfold bind, ret, raise, unmodelled in H. split_matches H.
  all: try solve [inversion H; subst; apply sections_kept_refl].
  all: try solve [inversion H; subst; eapply cursect_append_keeps;
                  eassumption].
  all: try solve [eapply read_header_keeps; eassumption].
  all: eapply read_option_keeps; eassumption.
Qed.

Lemma read_lines_keeps (fpname : string) (lines : list string) :
  forall (lineno : nat) (st : Locals) (s s' : ConfigParser * World)
         (r : Outcome Locals),
    read_lines fpname lineno lines st s = (r, s') -> sections_kept s s'.
Proof.
  induction lines as [| line rest IH]; intros lineno st s s' r H.
  - inversion H; subst. apply sections_kept_refl.
  - simpl in H. unfold bind in H.
    destruct (read_line fpname lineno line st s) as [[st1 | e1 |] s1] eqn:E.
    + eapply sections_kept_trans;
        [eapply read_line_keeps; exact E | eapply IH; exact H].
    + inversion H; subst. eapply read_line_keeps; exact E.
    + inversion H; subst. eapply read_line_keeps; exact E.
Qed.

Lemma join_options_keys (d : SectionDict) :
  dict_keys (join_options d) = dict_keys d.
Proof.
  unfold join_options, dict_keys. rewrite map_map. reflexivity.
Qed.

Lemma _join_multiline_values_keeps (s s' : ConfigParser * World)
    (r : Outcome unit) :
  _join_multiline_values s = (r, s') -> sections_kept s s'.
Proof.
  unfold _join_multiline_values, bind, get_self, put_self. simpl.
  intros H. inversion H; subst. unfold sections_kept, dict_keys. simpl.
  rewrite map_map. simpl. apply incl_refl.
Qed.

Lemma _read_keeps (content fpname : string) (s s' : ConfigParser * World)
    (r : Outcome unit) :
  _read content fpname s = (r, s') -> sections_kept s s'.
Proof.
  unfold _read. destruct (supported_text content); simpl.
  - unfold bind at 1.
    destruct (read_lines fpname 1 (readlines content) _ s)
      as [[st1 | e1 |] s1] eqn:E; intros H.
    + apply read_lines_keeps in E. unfold bind in H.
      destruct (_join_multiline_values s1) as [[u | e2 |] s2] eqn:E2;
        apply _join_multiline_values_keeps in E2.
      * destruct (configparser.e st1); inversion H; subst;
          eapply sections_kept_trans; eassumption.
      * inversion H; subst. eapply sections_kept_trans; eassumption.
      * inversion H; subst. eapply sections_kept_trans; eassumption.
    + inversion H; subst. eapply read_lines_keeps; exact E.
    + inversion H; subst. eapply read_lines_keeps; exact E.
  - intros H. inversion H; subst. apply sections_kept_refl.
Qed.

Lemma open_keeps {O} (path : string) (s s' : O * World) (r : Outcome string) :
  open path s = (r, s') -> fst s' = fst s.
Proof.
  unfold open, bind, emit, get_world, ret, raise. cbn [fst snd].
  destruct (dict_get path _); intros H; inversion H; reflexivity.
Qed.

Lemma read_keeps (path : string) (s s' : ConfigParser * World)
    (r : Outcome (list string)) :
  read path s = (r, s') -> sections_kept s s'.
Proof.
  unfold read, try_except. unfold bind at 1 2. unfold emit at 1.
  cbn [fst snd].
  destruct (open path (fst s, log (ConfigRead path) (snd s)))
    as [[content | e1 |] s1] eqn:E; apply open_keeps in E; simpl in E.
  - unfold bind.
    destruct (_read content path s1) as [[u | e2 |] s2] eqn:E2;
      apply _read_keeps in E2; unfold sections_kept in *; rewrite E in E2;
      [| destruct (is_OSError e2) |]; intros H; inversion H; subst;
      exact E2.
  - destruct (is_OSError e1); intros H; inversion H; subst;
      unfold sections_kept; simpl; rewrite E; apply incl_refl.
  - intros H; inversion H; subst.
    unfold sections_kept; simpl; rewrite E; apply incl_refl.
Qed.

Lemma _add_section_head_keeps (path : string) (s s' : ConfigParser * World)
    (r : Outcome unit) :
  _add_section_head path s = (r, s') -> sections_kept s s'.
Proof.
  unfold _add_section_head. unfold bind at 1.
  destruct (open path s) as [[content | e1 |] s1] eqn:E;
    apply open_keeps in E.
  - unfold read_string, bind, emit. cbn [fst snd].
    destruct (_read _ _ _) as [[u | e2 |] s2] eqn:E2;
      apply _read_keeps in E2; unfold sections_kept in *; simpl in E2;
      rewrite E in E2; intros H; inversion H; subst; exact E2.
  - intros H; inversion H; subst. unfold sections_kept. rewrite E.
    apply incl_refl.
  - intros H; inversion H; subst. unfold sections_kept. rewrite E.
    apply incl_refl.
Qed.

(** A dict comprehension over calls that leave the state alone leaves the
    state alone, and its keys are the items it ranges over. *)
Lemma dict_comprehension_pure {O V} (value : string -> M O V)
    (xs : list string) :
  (forall x s r s', value x s = (r, s') -> s' = s) ->
  forall acc s r s',
    dict_comprehension xs value acc s = (r, s') -> s' = s.
Proof.
  intros Hv. induction xs as [| x rest IH]; intros acc s r s' H.
  - inversion H; reflexivity.
  - simpl in H. unfold bind in H.
    destruct (value x s) as [[v | e1 |] s1] eqn:E; apply Hv in E; subst.
    + eapply IH; exact H.
    + inversion H; reflexivity.
    + inversion H; reflexivity.
Qed.

Lemma dict_comprehension_keys {O V} (value : string -> M O V)
    (xs : list string) :
  forall acc s d s',
    dict_comprehension xs value acc s = (Return d, s') ->
    incl xs (dict_keys d) /\ incl (dict_keys acc) (dict_keys d).
Proof.
  induction xs as [| x rest IH]; intros acc s d s' H.
  - inversion H; subst. split; [intros y [] | apply incl_refl].
  - simpl in H. unfold bind in H.
    destruct (value x s) as [[v | e1 |] s1] eqn:E; try discriminate.
    destruct (IH _ _ _ _ H) as [Hrest Hacc]. split.
    + intros y [<- | Hy]; [| now apply Hrest].
      apply Hacc. apply dict_set_has_key.
    + eapply incl_tran; [apply dict_set_keeps_keys | exact Hacc].
Qed.

Lemma get_pure (section option : string) (s s' : ConfigParser * World)
    (r : Outcome string) :
  get section option s = (r, s') -> s' = s.
Proof.
  unfold get, _unify_values, bind, get_self, ret, raise, unmodelled.
  intros H. split_matches H; inversion H; reflexivity.
Qed.

Lemma config_as_dict_pure (s s' : ConfigParser * World) (r : Outcome IniData) :
  config_as_dict s = (r, s') -> s' = s.
Proof.
  unfold config_as_dict, sections. unfold bind at 1, get_self, ret.
  cbn [fst snd]. apply dict_comprehension_pure.
  intros section s0 r0 s0' H.
  unfold options, bind, get_self, ret, raise in H. cbn [fst snd] in H.
  destruct (dict_get section (_sections (fst s0))) as [opts |];
    cbn beta iota in H.
  - eapply dict_comprehension_pure; [| exact H].
    intros x s1 r1 s1'; apply get_pure.
  - inversion H; reflexivity.
Qed.

Lemma config_as_dict_sections (s s' : ConfigParser * World) (d : IniData) :
  config_as_dict s = (Return d, s') ->
  incl (dict_keys (_sections (fst s))) (dict_keys d).
Proof.
  unfold config_as_dict, sections. unfold bind at 1, get_self, ret.
  cbn [fst snd]. intros H.
  exact (proj1 (dict_comprehension_keys _ _ _ _ _ _ H)).
Qed.

(** X9: sections are kept from one load to the next.  Whatever
    [IniLoader.load] returns holds every section that the parser of the
    loader held before the call, whichever file is loaded. *)
Theorem IniLoader_load_keeps_old_sections (path : string)
    (cfg cfg' : ConfigParser) (w w' : World) (d : IniData) :
  IniLoader_load path (cfg, w) = (Return d, (cfg', w')) ->
  incl (dict_keys (_sections cfg)) (dict_keys d).
Proof.
  unfold IniLoader_load. unfold bind at 1. unfold try_except.
  unfold bind at 1.
  destruct (read path (cfg, w)) as [[l | e1 |] s1] eqn:E.
  - apply read_keeps in E. unfold ret. intros H.
    eapply incl_tran; [exact E | eapply config_as_dict_sections; exact H].
  - destruct (is_MissingSectionHeaderError e1).
    + apply read_keeps in E.
      destruct (_add_section_head path s1) as [[u | e2 |] s2] eqn:E2;
        try discriminate.
      apply _add_section_head_keeps in E2. intros H.
      eapply incl_tran; [exact E |].
      eapply incl_tran; [exact E2 | eapply config_as_dict_sections; exact H].
    + discriminate.
  - discriminate.
Qed.

Lemma IniLoader_load_keeps_old_sections_witness :
  incl (dict_keys (_sections {| _sections := [("a", [("x", Joined "1")])];
                                _defaults := [] |}))
       (dict_keys [("a", [("x", "1")]); ("b", [("y", "2")])]).
Proof.
  apply (IniLoader_load_keeps_old_sections "b.ini"
           {| _sections := [("a", [("x", Joined "1")])]; _defaults := [] |}
           {| _sections := [("a", [("x", Joined "1")]);
                            ("b", [("y", Joined "2")])];
              _defaults := [] |}
           two_files_world
           (log (Opened "b.ini") (log (ConfigRead "b.ini") two_files_world))).
  reflexivity.
Defined.

Lemma dict_comprehension_raises {O V} (P : Exn -> Prop)
    (value : string -> M O V) (xs : list string) :
  (forall x s e s', value x s = (Raise e, s') -> P e) ->
  forall acc s e s',
    dict_comprehension xs value acc s = (Raise e, s') -> P e.
Proof.
  intros Hv. induction xs as [| x rest IH]; intros acc s e s' H.
  - discriminate.
  - simpl in H. unfold bind in H.
    destruct (value x s) as [[v | e1 |] s1] eqn:E.
    + eapply IH; exact H.
    + inversion H; subst. eapply Hv; exact E.
    + discriminate.
Qed.

Lemma get_raises (section option : string) (s s' : ConfigParser * World)
    (e : Exn) :
  get section option s = (Raise e, s') ->
  is_MissingSectionHeaderError e = false.
Proof.
  unfold get, _unify_values, bind, get_self, ret, raise, unmodelled.
  intros H. split_matches H; inversion H; reflexivity.
Qed.

Lemma config_as_dict_raises (s s' : ConfigParser * World) (e : Exn) :
  config_as_dict s = (Raise e, s') ->
  is_MissingSectionHeaderError e = false.
Proof.
  unfold config_as_dict, sections. unfold bind at 1, get_self, ret.
  cbn [fst snd].
  apply (dict_comprehension_raises
           (fun e => is_MissingSectionHeaderError e = false)).
  intros section s0 e0 s0' H.
  unfold options, bind, get_self, ret, raise in H. cbn [fst snd] in H.
  destruct (dict_get section (_sections (fst s0))) as [opts |];
    cbn beta iota in H.
  - eapply (dict_comprehension_raises
              (fun e => is_MissingSectionHeaderError e = false));
      [| exact H].
    intros x s1 e1 s1'; apply get_raises.
  - inversion H; reflexivity.
Qed.

(** The text that the repair path parses opens with a section header, so
    its parse does not fail for a missing header. *)
Lemma _read_with_header (content fpname : string)
    (s s' : ConfigParser * World) (e : Exn) :
  _read ("[__headless__]" ++ nl ++ content) fpname s = (Raise e, s') ->
  is_MissingSectionHeaderError e = false.
Proof.
  unfold _read.
  destruct (supported_text ("[__headless__]" ++ nl ++ content));
    [| discriminate].
  cbn [negb].
  change (readlines ("[__headless__]" ++ nl ++ content))
    with (("[__headless__]" ++ nl) :: readlines content).
  cbn [read_lines]. unfold bind at 1 2.
  change (read_line fpname 1 ("[__headless__]" ++ nl)
            {| elements_added := []; cursect := None; sectname := None;
               optname := None; indent_level := 0; e := false |} s)
    with (read_header fpname 1 "__headless__"
            {| elements_added := []; cursect := None; sectname := None;
               optname := None; indent_level := 0; e := false |} s).
  destruct (read_header fpname 1 "__headless__" _ s)
    as [[st1 | e1 |] s1] eqn:E; apply read_header_outcome in E; simpl in E.
  - destruct (read_lines fpname 2 (readlines content) st1 s1)
      as [[st2 | e2 |] s2] eqn:E2.
    + unfold bind, _join_multiline_values, get_self, put_self. simpl.
      destruct (configparser.e st2); intros H; inversion H; reflexivity.
    + apply (read_lines_in_section _ _ _ _ _ _ _ E) in E2. simpl in E2.
      intros H; inversion H; subst; exact E2.
    + discriminate.
  - intros H; inversion H; subst; exact E.
  - discriminate.
Qed.

(** X10: [IniLoader.load] never raises [MissingSectionHeaderError].  The
    error of the first parse is caught, and the second parse starts with
    the added header; every other error of the parser is not caught and
    reaches the caller. *)
Theorem IniLoader_load_never_missing_header (path : string)
    (s s' : ConfigParser * World) (e : Exn) :
  IniLoader_load path s = (Raise e, s') ->
  is_MissingSectionHeaderError e = false.
Proof.
  unfold IniLoader_load. unfold bind at 1. unfold try_except.
  unfold bind at 1.
  destruct (read path s) as [[l | e1 |] s1] eqn:E.
  - unfold ret. apply config_as_dict_raises.
  - destruct (is_MissingSectionHeaderError e1) eqn:He1.
    + unfold _add_section_head. unfold bind at 1.
      destruct (open path s1) as [[content | e2 |] s2] eqn:E2.
      * unfold read_string. unfold bind at 1, emit. cbn [fst snd].
        destruct (_read _ _ _) as [[u | e3 |] s3] eqn:E3.
        -- apply config_as_dict_raises.
        -- apply _read_with_header in E3.
           intros H; inversion H; subst; exact E3.
        -- discriminate.
      * unfold open, bind, emit, get_world, ret, raise in E2.
        cbn [fst snd] in E2. destruct (dict_get path _); inversion E2; subst.
        intros H; inversion H; reflexivity.
      * discriminate.
    + intros H; inversion H; subst; exact He1.
  - discriminate.
Qed.

Lemma IniLoader_load_never_missing_header_witness :
  is_MissingSectionHeaderError (ParsingError "<string>") = false.
Proof.
  apply (IniLoader_load_never_missing_header "settings.ini"
           (ConfigParser__init__,
            {| files := [("settings.ini", "no delimiter here")];
               trace := [] |})
           ({| _sections := [("__headless__", [])]; _defaults := [] |},
            log (ConfigReadString
                   ("[__headless__]" ++ nl ++ "no delimiter here"))
              (log (Opened "settings.ini")
                 (log (Opened "settings.ini")
                    (log (ConfigRead "settings.ini")
                       {| files := [("settings.ini", "no delimiter here")];
                          trace := [] |}))))).
  reflexivity.
Defined.

Lemma dict_set_Forall {V} (P : string * V -> Prop) (k : string) (v : V)
    (d : list (string * V)) :
  P (k, v) -> Forall P d -> Forall P (dict_set k v d).
Proof.
  intros Hkv Hd. induction Hd as [| [k' v'] d Hx Hd IH]; simpl.
  - constructor; [exact Hkv | constructor].
  - destruct (k' =? k); constructor; assumption.
Qed.

Lemma dict_get_Forall {V} (P : string * V -> Prop) (k : string) (v : V)
    (d : list (string * V)) :
  Forall P d -> dict_get k d = Some v -> P (k, v).
Proof.
  intros Hd. induction Hd as [| [k' v'] d Hx Hd IH]; simpl.
  - discriminate.
  - destruct (k' =? k) eqn:Hk.
    + apply String.eqb_eq in Hk. intros [= <-]. now subst.
    + exact IH.
Qed.

(** The entries of a dict comprehension over calls that leave the state
    alone are made by these calls in the state of the comprehension. *)
Lemma dict_comprehension_entries {O V} (value : string -> M O V)
    (Q : string * V -> Prop) (s : O * World) (xs : list string) :
  (forall x s0 r s0', value x s0 = (r, s0') -> s0' = s0) ->
  (forall x v, value x s = (Return v, s) -> Q (x, v)) ->
  forall acc d s',
    Forall Q acc ->
    dict_comprehension xs value acc s = (Return d, s') ->
    Forall Q d.
Proof.
  intros Hpure Hq. induction xs as [| x rest IH]; intros acc d s' Hacc H.
  - inversion H; subst. exact Hacc.
  - simpl in H. unfold bind in H.
    destruct (value x s) as [[v | e1 |] s1] eqn:E; try discriminate.
    pose proof (Hpure _ _ _ _ E) as ->.
    eapply IH; [| exact H]. apply dict_set_Forall; [| exact Hacc].
    now apply Hq.
Qed.

Lemma dict_update_keeps_keys {V} (other opts : list (string * V)) :
  incl (dict_keys opts) (dict_keys (dict_update opts other))
  /\ incl (dict_keys other) (dict_keys (dict_update opts other)).
Proof.
  unfold dict_update. revert opts.
  induction other as [| [k v] other IH]; intros opts; simpl.
  - split; [apply incl_refl | intros x []].
  - destruct (IH (dict_set k v opts)) as [Ho Hd]. split.
    + eapply incl_tran; [apply dict_set_keeps_keys | exact Ho].
    + intros x [<- | Hx]; [| now apply Hd].
      apply Ho. apply dict_set_has_key.
Qed.

(** X11: the options of the [DEFAULT] section are options of every
    section.  In the dict that [IniLoader.load] returns, every section
    lists its own options and every option of the defaults of the
    parser. *)
Theorem IniLoader_load_merges_defaults (path : string)
    (cfg cfg' : ConfigParser) (w w' : World) (d : IniData)
    (section : string) (opts : list (string * string)) :
  IniLoader_load path (cfg, w) = (Return d, (cfg', w')) ->
  In (section, opts) d ->
  incl (dict_keys (_defaults cfg')) (dict_keys opts)
  /\ exists own,
       dict_get section (_sections cfg') = Some own
       /\ incl (dict_keys own) (dict_keys opts).
Proof.
  intros Hload Hin.
  assert (Hdict : exists s1, config_as_dict s1 = (Return d, (cfg', w'))).
  { revert Hload. unfold IniLoader_load. unfold bind at 1.
    destruct (try_except _ _ _ (cfg, w)) as [[u | e1 |] s1];
      try discriminate.
    intros H. now exists s1. }
  destruct Hdict as [s1 Hdict].
  pose proof (config_as_dict_pure _ _ _ Hdict) as Hs. subst s1.
  assert (Hcomp :
            dict_comprehension (dict_keys (_sections cfg'))
              (fun section =>
                 opts <- options section ;;
                 dict_comprehension opts
                   (fun option => get section option) [])
              [] (cfg', w')
            = (Return d, (cfg', w'))) by exact Hdict.
  clear Hdict.
  pose (Q := fun so : string * list (string * string) =>
               incl (dict_keys (_defaults cfg')) (dict_keys (snd so))
               /\ exists own,
                    dict_get (fst so) (_sections cfg') = Some own
                    /\ incl (dict_keys own) (dict_keys (snd so))).
  assert (HQ : Forall Q d).
  { eapply (dict_comprehension_entries _ Q); [| | constructor | exact Hcomp].
    - intros x s0 r s0' H.
      unfold options, bind, get_self, ret, raise in H. cbn [fst snd] in H.
      destruct (dict_get x (_sections (fst s0))); cbn beta iota in H.
      + eapply dict_comprehension_pure; [| exact H].
        intros y s2 r2 s2'; apply get_pure.
      + inversion H; reflexivity.
    - intros x v H.
      unfold options, bind, get_self, ret, raise in H. cbn [fst snd] in H.
      destruct (dict_get x (_sections cfg')) as [own |] eqn:Hown;
        cbn beta iota in H; [| discriminate].
      destruct (dict_comprehension_keys _ _ _ _ _ _ H) as [Hkeys _].
      destruct (dict_update_keeps_keys (_defaults cfg') own) as [Ho Hd].
      unfold Q. simpl. split.
      + eapply incl_tran; [exact Hd | exact Hkeys].
      + exists own. split; [exact Hown |].
        eapply incl_tran; [exact Ho | exact Hkeys]. }
  rewrite Forall_forall in HQ. exact (HQ _ Hin).
Qed.

Lemma IniLoader_load_merges_defaults_witness :
  incl (dict_keys (_defaults {| _sections := [("a", [("x", Joined "1")])];
                                _defaults := [("z", Joined "0")] |}))
       (dict_keys [("x", "1"); ("z", "0")])
  /\ exists own,
       dict_get "a" (_sections {| _sections := [("a", [("x", Joined "1")])];
                                  _defaults := [("z", Joined "0")] |})
       = Some own
       /\ incl (dict_keys own) (dict_keys [("x", "1"); ("z", "0")]).
Proof.
  apply (IniLoader_load_merges_defaults "d.ini" ConfigParser__init__
           {| _sections := [("a", [("x", Joined "1")])];
              _defaults := [("z", Joined "0")] |}
           {| files := [("d.ini", "[DEFAULT]" ++ nl ++ "z=0" ++ nl
                                   ++ "[a]" ++ nl ++ "x=1" ++ nl)];
              trace := [] |}
           (log (Opened "d.ini")
              (log (ConfigRead "d.ini")
                 {| files := [("d.ini", "[DEFAULT]" ++ nl ++ "z=0" ++ nl
                                         ++ "[a]" ++ nl ++ "x=1" ++ nl)];
                    trace := [] |}))
           [("a", [("x", "1"); ("z", "0")])]
           "a" [("x", "1"); ("z", "0")]).
  - reflexivity.
  - simpl. auto.
Defined.

Lemma lower_char_idem (c : ascii) : lower_char (lower_char c) = lower_char c.
Proof.
  destruct c as [[] [] [] [] [] [] [] []]; reflexivity.
Qed.

Lemma lower_idem (s : string) : lower (lower s) = lower s.
Proof.
  induction s as [| c s IH]; simpl; [reflexivity |].
  now rewrite lower_char_idem, IH.
Qed.

Lemma cursect_dict_lower (c : Cursect) (cfg : ConfigParser) (d : SectionDict) :
  option_names_lower cfg -> cursect_dict c cfg = Some d -> lower_keys d.
Proof.
  intros [Hs Hd]. destruct c as [| name]; simpl.
  - intros [= <-]. exact Hd.
  - intros H.
    exact (dict_get_Forall (fun sd => lower_keys (snd sd)) _ _ _ Hs H).
Qed.

Lemma cursect_setitem_lower (c : Cursect) (k : string) (v : OptVal)
    (s s' : ConfigParser * World) (r : Outcome unit) :
  lower k = k -> option_names_lower (fst s) ->
  cursect_setitem c k v s = (r, s') -> option_names_lower (fst s').
Proof.
  intros Hk [Hs Hd].
  unfold cursect_setitem, bind, get_self, put_self, unmodelled.
  intros H. split_matches H; inversion H; subst; simpl; try (now split).
  - split; [exact Hs |]. now apply dict_set_Forall.
  - split; [| exact Hd].
    apply dict_set_Forall; [| exact Hs]. simpl.
    apply dict_set_Forall; [exact Hk |].
    match goal with
    | Hg : dict_get _ (_sections _) = Some _ |- _ =>
        exact (dict_get_Forall (fun sd => lower_keys (snd sd)) _ _ _ Hs Hg)
    end.
Qed.

Lemma cursect_append_lower (c : Cursect) (k line : string)
    (s s' : ConfigParser * World) (r : Outcome unit) :
  option_names_lower (fst s) ->
  cursect_append c k line s = (r, s') -> option_names_lower (fst s').
Proof.
  intros Hl.
  unfold cursect_append, cursect_getitem, bind, get_self, ret, unmodelled.
  intros H. split_matches H.
  all: try solve [inversion H; subst; exact Hl].
  all: eapply cursect_setitem_lower; [| exact Hl | exact H].
  all: match goal with
       | Hd : cursect_dict _ _ = Some ?d, Hg : dict_get _ ?d = Some _ |- _ =>
           exact (dict_get_Forall (fun kv => lower (fst kv) = fst kv) _ _ _
                    (cursect_dict_lower _ _ _ Hl Hd) Hg)
       end.
Qed.

Lemma read_header_lower (fpname : string) (lineno : nat) (name : string)
    (st : Locals) (s s' : ConfigParser * World) (r : Outcome Locals) :
  option_names_lower (fst s) ->
  read_header fpname lineno name st s = (r, s') ->
  option_names_lower (fst s').
Proof.
  intros [Hs Hd]. unfold read_header, bind, get_self, put_self, ret, raise.
  intros H. split_matches H; inversion H; subst; simpl; try (now split).
  split; [| exact Hd]. apply dict_set_Forall; [constructor | exact Hs].
Qed.

Lemma read_option_lower (fpname : string) (lineno : nat) (value : string)
    (c : Cursect) (st : Locals) (s s' : ConfigParser * World)
    (r : Outcome Locals) :
  option_names_lower (fst s) ->
  read_option fpname lineno value c st s = (r, s') ->
  option_names_lower (fst s').
Proof.
  intros Hl. unfold read_option, bind, ret, raise, unmodelled.
  intros H. split_matches H.
  all: try solve [inversion H; subst; exact Hl].
  all: inversion H; subst;
    eapply cursect_setitem_lower; [| exact Hl | eassumption];
    apply lower_idem.
Qed.

Lemma read_line_lower (fpname : string) (lineno : nat) (line : string)
    (st : Locals) (s s' : ConfigParser * World) (r : Outcome Locals) :
  option_names_lower (fst s) ->
  read_line fpname lineno line st s = (r, s') ->
  option_names_lower (fst s').
Proof.
  intros Hl H. unfold read_line in H.
  unfold bind, ret, raise, unmodelled in H. split_matches H.
  all: try solve [inversion H; subst; exact Hl].
  all: try solve [inversion H; subst;
                  eapply cursect_append_lower; [exact Hl | eassumption]].
  all: try solve [eapply read_header_lower; [exact Hl | eassumption]].
  all: eapply read_option_lower; [exact Hl | eassumption].
Qed.

Lemma read_lines_lower (fpname : string) (lines : list string) :
  forall (lineno : nat) (st : Locals) (s s' : ConfigParser * World)
         (r : Outcome Locals),
    option_names_lower (fst s) ->
    read_lines fpname lineno lines st s = (r, s') ->
    option_names_lower (fst s').
Proof.
  induction lines as [| line rest IH]; intros lineno st s s' r Hl H.
  - inversion H; subst. exact Hl.
  - simpl in H. unfold bind in H.
    destruct (read_line fpname lineno line st s) as [[st1 | e1 |] s1] eqn:E;
      apply (read_line_lower _ _ _ _ _ _ _ Hl) in E.
    + eapply IH; [exact E | exact H].
    + inversion H; subst. exact E.
    + inversion H; subst. exact E.
Qed.

Lemma join_options_lower (d : SectionDict) :
  lower_keys d -> lower_keys (join_options d).
Proof.
  unfold lower_keys, join_options. rewrite Forall_map. simpl. trivial.
Qed.

Lemma _join_multiline_values_lower (s s' : ConfigParser * World)
    (r : Outcome unit) :
  option_names_lower (fst s) ->
  _join_multiline_values s = (r, s') -> option_names_lower (fst s').
Proof.
  intros [Hs Hd]. unfold _join_multiline_values, bind, get_self, put_self.
  cbn [fst snd]. intros H. inversion H; subst.
  unfold option_names_lower. cbn [fst _sections _defaults]. split.
  - rewrite Forall_map. cbn [snd].
    eapply Forall_impl; [| exact Hs]. intros sd. apply join_options_lower.
  - now apply join_options_lower.
Qed.

Lemma _read_lower (content fpname : string) (s s' : ConfigParser * World)
    (r : Outcome unit) :
  option_names_lower (fst s) ->
  _read content fpname s = (r, s') -> option_names_lower (fst s').
Proof.
  intros Hl. unfold _read. destruct (supported_text content); simpl.
  - unfold bind at 1.
    destruct (read_lines fpname 1 (readlines content) _ s)
      as [[st1 | e1 |] s1] eqn:E;
      apply (read_lines_lower _ _ _ _ _ _ _ Hl) in E; intros H.
    + unfold bind in H.
      destruct (_join_multiline_values s1) as [[u | e2 |] s2] eqn:E2;
        apply (_join_multiline_values_lower _ _ _ E) in E2.
      * destruct (configparser.e st1); inversion H; subst; exact E2.
      * inversion H; subst; exact E2.
      * inversion H; subst; exact E2.
    + inversion H; subst; exact E.
    + inversion H; subst; exact E.
  - intros H. inversion H; subst. exact Hl.
Qed.

Lemma read_lower (path : string) (s s' : ConfigParser * World)
    (r : Outcome (list string)) :
  option_names_lower (fst s) ->
  read path s = (r, s') -> option_names_lower (fst s').
Proof.
  intros Hl. unfold read, try_except. unfold bind at 1 2. unfold emit at 1.
  cbn [fst snd].
  destruct (open path (fst s, log (ConfigRead path) (snd s)))
    as [[content | e1 |] s1] eqn:E; apply open_keeps in E; simpl in E;
    rewrite <- E in Hl.
  - unfold bind.
    destruct (_read content path s1) as [[u | e2 |] s2] eqn:E2;
      apply (_read_lower _ _ _ _ _ Hl) in E2;
      [| destruct (is_OSError e2) |]; intros H; inversion H; subst;
      exact E2.
  - destruct (is_OSError e1); intros H; inversion H; subst; exact Hl.
  - intros H; inversion H; subst; exact Hl.
Qed.

Lemma _add_section_head_lower (path : string) (s s' : ConfigParser * World)
    (r : Outcome unit) :
  option_names_lower (fst s) ->
  _add_section_head path s = (r, s') -> option_names_lower (fst s').
Proof.
  intros Hl. unfold _add_section_head. unfold bind at 1.
  destruct (open path s) as [[content | e1 |] s1] eqn:E;
    apply open_keeps in E; rewrite <- E in Hl.
  - unfold read_string, bind, emit. cbn [fst snd].
    destruct (_read _ _ _) as [[u | e2 |] s2] eqn:E2;
      apply _read_lower in E2; try exact Hl;
      intros H; inversion H; subst; exact E2.
  - intros H; inversion H; subst; exact Hl.
  - intros H; inversion H; subst; exact Hl.
Qed.

Lemma dict_set_keys_sub {V} (k : string) (v : V) (d : list (string * V)) :
  incl (dict_keys (dict_set k v d)) (k :: dict_keys d).
Proof.
  induction d as [| [k' v'] d IH]; simpl.
  - apply incl_refl.
  - destruct (k' =? k) eqn:Hk; simpl.
    + intros x [<- | Hx]; [now left | right; now right].
    + intros x [<- | Hx]; [right; now left |].
      destruct (IH x Hx) as [<- | Hx']; [now left | right; now right].
Qed.

Lemma dict_comprehension_keys_sub {O V} (value : string -> M O V)
    (xs : list string) :
  forall acc s d s',
    dict_comprehension xs value acc s = (Return d, s') ->
    incl (dict_keys d) (xs ++ dict_keys acc)%list.
Proof.
  induction xs as [| x rest IH]; intros acc s d s' H.
  - inversion H; subst. apply incl_refl.
  - simpl in H. unfold bind in H.
    destruct (value x s) as [[v | e1 |] s1] eqn:E; try discriminate.
    intros y Hy. apply (IH _ _ _ _ H) in Hy.
    apply in_app_or in Hy. destruct Hy as [Hy | Hy].
    + simpl. right. apply in_or_app. now left.
    + apply dict_set_keys_sub in Hy. destruct Hy as [<- | Hy].
      * now left.
      * simpl. right. apply in_or_app. now right.
Qed.

Lemma dict_update_lower (other opts : SectionDict) :
  lower_keys opts -> lower_keys other -> lower_keys (dict_update opts other).
Proof.
  unfold dict_update. revert opts.
  induction other as [| [k v] other IH]; intros opts Ho Hd; simpl.
  - exact Ho.
  - inversion Hd; subst. apply IH; [| assumption].
    now apply dict_set_Forall.
Qed.

(** X12: option names come back in lower case.  When the option names
    of the parser are in lower case before [IniLoader.load], as they are on
    a new loader, they are so afterwards, and every option name of the dict
    that [load] returns is in lower case, however the file spells it. *)
Theorem IniLoader_load_lowers_option_names (path : string)
    (cfg cfg' : ConfigParser) (w w' : World) (d : IniData) :
  option_names_lower cfg ->
  IniLoader_load path (cfg, w) = (Return d, (cfg', w')) ->
  option_names_lower cfg'
  /\ Forall (fun so => lower_keys (snd so)) d.
Proof.
  intros Hl Hload.
  assert (Hdict : exists s1,
             option_names_lower (fst s1)
             /\ config_as_dict s1 = (Return d, (cfg', w'))).
  { revert Hload. unfold IniLoader_load. unfold bind at 1.
    destruct (try_except _ _ _ (cfg, w)) as [[u | e1 |] s1] eqn:E;
      try discriminate.
    intros H. exists s1. split; [| exact H].
    revert E. unfold try_except. unfold bind at 1.
    destruct (read path (cfg, w)) as [[l | e2 |] s2] eqn:E2;
      apply (read_lower path (cfg, w) _ _ Hl) in E2.
    - unfold ret. intros E. inversion E; subst. exact E2.
    - destruct (is_MissingSectionHeaderError e2); [| discriminate].
      intros E. exact (_add_section_head_lower _ _ _ _ E2 E).
    - discriminate. }
  destruct Hdict as [s1 [Hl1 Hdict]].
  pose proof (config_as_dict_pure _ _ _ Hdict) as Hs. subst s1.
  simpl in Hl1. split; [exact Hl1 |].
  assert (Hcomp :
            dict_comprehension (dict_keys (_sections cfg'))
              (fun section =>
                 opts <- options section ;;
                 dict_comprehension opts
                   (fun option => get section option) [])
              [] (cfg', w')
            = (Return d, (cfg', w'))) by exact Hdict.
  eapply (dict_comprehension_entries _ (fun so => lower_keys (snd so)));
    [| | constructor | exact Hcomp].
  - intros x s0 r s0' H.
    unfold options, bind, get_self, ret, raise in H. cbn [fst snd] in H.
    destruct (dict_get x (_sections (fst s0))); cbn beta iota in H.
    + eapply dict_comprehension_pure; [| exact H].
      intros y s2 r2 s2'; apply get_pure.
    + inversion H; reflexivity.
  - intros x v H.
    unfold options, bind, get_self, ret, raise in H. cbn [fst snd] in H.
    destruct (dict_get x (_sections cfg')) as [own |] eqn:Hown;
      cbn beta iota in H; [| discriminate].
    apply dict_comprehension_keys_sub in H. rewrite app_nil_r in H.
    destruct Hl1 as [Hsec Hdef].
    pose proof (dict_get_Forall (fun sd => lower_keys (snd sd)) _ _ _
                  Hsec Hown) as Hown_lower. simpl in Hown_lower.
    pose proof (dict_update_lower _ _ Hown_lower Hdef) as Hopts.
    unfold lower_keys in *. cbn [snd].
    rewrite Forall_forall in Hopts. rewrite Forall_forall.
    intros [k val] Hkv. simpl.
    assert (Hk : In k (dict_keys v)) by (apply (in_map fst _ _ Hkv)).
    apply H in Hk. unfold dict_keys in Hk. apply in_map_iff in Hk.
    destruct Hk as [[k' v'] [Heq Hin]]. simpl in Heq. subst k'.
    exact (Hopts _ Hin).
Qed.

Lemma option_names_lower_new : option_names_lower ConfigParser__init__.
Proof. split; constructor. Qed.

Lemma IniLoader_load_lowers_option_names_witness :
  option_names_lower
    {| _sections := [("Server", [("hostname", Joined "Example.ORG")])];
       _defaults := [] |}
  /\ Forall (fun so : string * list (string * string) => lower_keys (snd so))
       [("Server", [("hostname", "Example.ORG")])].
Proof.
  apply (IniLoader_load_lowers_option_names "s.ini" ConfigParser__init__
           {| _sections := [("Server", [("hostname", Joined "Example.ORG")])];
              _defaults := [] |}
           {| files := [("s.ini", "[Server]" ++ nl ++ "HostName = Example.ORG")];
              trace := [] |}
           (log (Opened "s.ini")
              (log (ConfigRead "s.ini")
                 {| files := [("s.ini",
                               "[Server]" ++ nl ++ "HostName = Example.ORG")];
                    trace := [] |}))
           [("Server", [("hostname", "Example.ORG")])]).
  - exact option_names_lower_new.
  - reflexivity.
Defined.

Lemma stdout_log (e : Event) (w : World) :
  stdout (log e w)
  = (stdout w ++ match e with Printed l => [l] | _ => [] end)%list.
Proof.
  unfold stdout, log. simpl. rewrite flat_map_app. simpl.
  now rewrite app_nil_r.
Qed.

Lemma scan_loaders_raises (classes : list LoaderClass) (x : string)
    (f : LoaderFactory) (w : World) (e : Exn) (s : LoaderFactory * World) :
  scan_loaders classes x (f, w) = (Raise e, s) ->
  e = NoLoaderFoundError x (NoLoaderFoundError_msg x)
  /\ s = (f, log (Printed (NoLoaderFoundError_msg x)) w).
Proof.
  induction classes as [| c rest IH]; simpl.
  - intros H. inversion H. split; reflexivity.
  - destruct (truthy (check_extension_supported c x)); [discriminate |].
    exact IH.
Qed.

(** X13: an error of the module is printed when it is raised.  When
    [get_loader] or the setter raises, the factory is as it was and
    standard output has gained exactly the text of the error ([str(e)]) if
    the error is a [LoaderError], and nothing otherwise. *)
Theorem raised_LoaderError_is_printed (f f' : LoaderFactory) (w w' : World)
    (e : Exn) (x : string) (v : PyVal) :
  get_loader x (f, w) = (Raise e, (f', w'))
  \/ set_target_file_exts v (f, w) = (Raise e, (f', w')) ->
  f' = f
  /\ stdout w'
     = (stdout w ++ match LoaderError__repr__ e with
                    | Some msg => [msg]
                    | None => []
                    end)%list.
Proof.
  intros [H | H].
  - revert H. unfold get_loader, target_file_exts, get_self, lift.
    unfold bind at 1 2. cbn [fst snd].
    destruct (_target_file_exts f) as [v0 |].
    + unfold ret. unfold bind at 1.
      destruct (py_contains v0 x) as [[] | e1 |] eqn:Hc.
      * cbn [negb]. intros H. apply scan_loaders_raises in H.
        destruct H as [-> H]. inversion H; subst.
        split; [reflexivity | apply stdout_log].
      * discriminate.
      * intros H. inversion H; subst.
        destruct v0; simpl in Hc; inversion Hc; subst; simpl;
          split; try reflexivity; now rewrite app_nil_r.
      * discriminate.
    + unfold raise. intros H. inversion H; subst. simpl.
      split; [reflexivity | now rewrite app_nil_r].
  - revert H. unfold set_target_file_exts.
    destruct (truthy v).
    + unfold put_self. simpl. discriminate.
    + unfold bind, NoTargetFileExtensionsError__init__, LoaderError__init__,
        emit, ret, raise. simpl. intros H. inversion H; subst.
      split; [reflexivity | apply stdout_log].
Qed.

Lemma raised_LoaderError_is_printed_witness :
  noloader_factory = noloader_factory
  /\ stdout (log (Printed (NoLoaderFoundError_msg ".noloader")) empty_world)
     = (stdout empty_world
        ++ match LoaderError__repr__
                   (NoLoaderFoundError ".noloader"
                      (NoLoaderFoundError_msg ".noloader")) with
           | Some msg => [msg]
           | None => []
           end)%list.
Proof.
  apply (raised_LoaderError_is_printed noloader_factory noloader_factory
           empty_world
           (log (Printed (NoLoaderFoundError_msg ".noloader")) empty_world)
           (NoLoaderFoundError ".noloader"
              (NoLoaderFoundError_msg ".noloader"))
           ".noloader" PyNone).
  left. reflexivity.
Defined.

Lemma dict_get_In_keys {V} (k : string) (v : V) (d : list (string * V)) :
  dict_get k d = Some v -> In k (dict_keys d).
Proof.
  induction d as [| [k' v'] d IH]; simpl; [discriminate |].
  destruct (k' =? k) eqn:Hk.
  - apply String.eqb_eq in Hk. intros _. now left.
  - intros H. right. now apply IH.
Qed.

Lemma dict_set_no_key {V} (x k : string) (v : V) (d : list (string * V)) :
  x <> k -> ~ In x (dict_keys d) -> ~ In x (dict_keys (dict_set k v d)).
Proof.
  intros Hx Hd Hin. apply dict_set_keys_sub in Hin.
  destruct Hin as [<- | Hin]; [now apply Hx | now apply Hd].
Qed.

Lemma dict_set_no_new_key {V} (x k : string) (v : V) (d : list (string * V)) :
  In k (dict_keys d) -> ~ In x (dict_keys d) ->
  ~ In x (dict_keys (dict_set k v d)).
Proof.
  intros Hk Hd Hin. apply dict_set_keys_sub in Hin.
  destruct Hin as [<- | Hin]; now apply Hd.
Qed.

Lemma cursect_setitem_no_default (c : Cursect) (k : string) (v : OptVal)
    (s s' : ConfigParser * World) (r : Outcome unit) :
  no_default_section (fst s) ->
  cursect_setitem c k v s = (r, s') -> no_default_section (fst s').
Proof.
  intros Hn. unfold cursect_setitem, bind, get_self, put_self, unmodelled.
  intros H. split_matches H; inversion H; subst; try exact Hn.
  unfold no_default_section. simpl. apply dict_set_no_new_key; [| exact Hn].
  eapply dict_get_In_keys; eassumption.
Qed.

Lemma cursect_append_no_default (c : Cursect) (k line : string)
    (s s' : ConfigParser * World) (r : Outcome unit) :
  no_default_section (fst s) ->
  cursect_append c k line s = (r, s') -> no_default_section (fst s').
Proof.
  intros Hn.
  unfold cursect_append, cursect_getitem, bind, get_self, ret, unmodelled.
  intros H. split_matches H.
  all: try solve [inversion H; subst; exact Hn].
  all: eapply cursect_setitem_no_default; [exact Hn | exact H].
Qed.

Lemma read_header_no_default (fpname : string) (lineno : nat) (name : string)
    (st : Locals) (s s' : ConfigParser * World) (r : Outcome Locals) :
  no_default_section (fst s) ->
  read_header fpname lineno name st s = (r, s') ->
  no_default_section (fst s').
Proof.
  intros Hn. unfold read_header, bind, get_self, put_self, ret, raise.
  intros H. split_matches H; inversion H; subst; try exact Hn.
  unfold no_default_section. simpl. apply dict_set_no_key; [| exact Hn].
  intros Heq.
  match goal with
  | Hd : (name =? default_section) = false |- _ =>
      rewrite <- Heq, String.eqb_refl in Hd; discriminate
  end.
Qed.

Lemma read_option_no_default (fpname : string) (lineno : nat)
    (value : string) (c : Cursect) (st : Locals)
    (s s' : ConfigParser * World) (r : Outcome Locals) :
  no_default_section (fst s) ->
  read_option fpname lineno value c st s = (r, s') ->
  no_default_section (fst s').
Proof.
  intros Hn. unfold read_option, bind, ret, raise, unmodelled.
  intros H. split_matches H.
  all: try solve [inversion H; subst; exact Hn].
  all: inversion H; subst;
    eapply cursect_setitem_no_default; [exact Hn | eassumption].
Qed.

Lemma read_line_no_default (fpname : string) (lineno : nat) (line : string)
    (st : Locals) (s s' : ConfigParser * World) (r : Outcome Locals) :
  no_default_section (fst s) ->
  read_line fpname lineno line st s = (r, s') ->
  no_default_section (fst s').
Proof.
  intros Hn H. unfold read_line in H.
  unfold bind, ret, raise, unmodelled in H. split_matches H.
  all: try solve [inversion H; subst; exact Hn].
  all: try solve [inversion H; subst;
                  eapply cursect_append_no_default; [exact Hn | eassumption]].
  all: try solve [eapply read_header_no_default; [exact Hn | eassumption]].
  all: eapply read_option_no_default; [exact Hn | eassumption].
Qed.

Lemma read_lines_no_default (fpname : string) (lines : list string) :
  forall (lineno : nat) (st : Locals) (s s' : ConfigParser * World)
         (r : Outcome Locals),
    no_default_section (fst s) ->
    read_lines fpname lineno lines st s = (r, s') ->
    no_default_section (fst s').
Proof.
  induction lines as [| line rest IH]; intros lineno st s s' r Hn H.
  - inversion H; subst. exact Hn.
  - simpl in H. unfold bind in H.
    destruct (read_line fpname lineno line st s) as [[st1 | e1 |] s1] eqn:E;
      apply (read_line_no_default _ _ _ _ _ _ _ Hn) in E.
    + eapply IH; [exact E | exact H].
    + inversion H; subst. exact E.
    + inversion H; subst. exact E.
Qed.

Lemma _join_multiline_values_no_default (s s' : ConfigParser * World)
    (r : Outcome unit) :
  no_default_section (fst s) ->
  _join_multiline_values s = (r, s') -> no_default_section (fst s').
Proof.
  intros Hn. unfold _join_multiline_values, bind, get_self, put_self.
  cbn [fst snd]. intros H. inversion H; subst.
  unfold no_default_section, dict_keys in *. cbn [fst _sections].
  rewrite map_map. exact Hn.
Qed.

Lemma _read_no_default (content fpname : string)
    (s s' : ConfigParser * World) (r : Outcome unit) :
  no_default_section (fst s) ->
  _read content fpname s = (r, s') -> no_default_section (fst s').
Proof.
  intros Hn. unfold _read. destruct (supported_text content); simpl.
  - unfold bind at 1.
    destruct (read_lines fpname 1 (readlines content) _ s)
      as [[st1 | e1 |] s1] eqn:E;
      apply (read_lines_no_default _ _ _ _ _ _ _ Hn) in E; intros H.
    + unfold bind in H.
      destruct (_join_multiline_values s1) as [[u | e2 |] s2] eqn:E2;
        apply (_join_multiline_values_no_default _ _ _ E) in E2.
      * destruct (configparser.e st1); inversion H; subst; exact E2.
      * inversion H; subst; exact E2.
      * inversion H; subst; exact E2.
    + inversion H; subst; exact E.
    + inversion H; subst; exact E.
  - intros H. inversion H; subst. exact Hn.
Qed.

Lemma read_no_default (path : string) (s s' : ConfigParser * World)
    (r : Outcome (list string)) :
  no_default_section (fst s) ->
  read path s = (r, s') -> no_default_section (fst s').
Proof.
  intros Hn. unfold read, try_except. unfold bind at 1 2. unfold emit at 1.
  cbn [fst snd].
  destruct (open path (fst s, log (ConfigRead path) (snd s)))
    as [[content | e1 |] s1] eqn:E; apply open_keeps in E; simpl in E;
    rewrite <- E in Hn.
  - unfold bind.
    destruct (_read content path s1) as [[u | e2 |] s2] eqn:E2;
      apply (_read_no_default _ _ _ _ _ Hn) in E2;
      [| destruct (is_OSError e2) |]; intros H; inversion H; subst;
      exact E2.
  - destruct (is_OSError e1); intros H; inversion H; subst; exact Hn.
  - intros H; inversion H; subst; exact Hn.
Qed.

Lemma _add_section_head_no_default (path : string)
    (s s' : ConfigParser * World) (r : Outcome unit) :
  no_default_section (fst s) ->
  _add_section_head path s = (r, s') -> no_default_section (fst s').
Proof.
  intros Hn. unfold _add_section_head. unfold bind at 1.
  destruct (open path s) as [[content | e1 |] s1] eqn:E;
    apply open_keeps in E; rewrite <- E in Hn.
  - unfold read_string, bind, emit. cbn [fst snd].
    destruct (_read _ _ _) as [[u | e2 |] s2] eqn:E2;
      apply _read_no_default in E2; try exact Hn;
      intros H; inversion H; subst; exact E2.
  - intros H; inversion H; subst; exact Hn.
  - intros H; inversion H; subst; exact Hn.
Qed.

(** X14: the keys of the dict that [IniLoader.load] returns are the names
    of the sections of the parser after the load.  The default section is
    none of them: on a parser without a section of that name, as a new one
    is, no load makes one, and [DEFAULT] is never a key of the result. *)
Theorem IniLoader_load_keys (path : string) (cfg cfg' : ConfigParser)
    (w w' : World) (d : IniData) :
  no_default_section cfg ->
  IniLoader_load path (cfg, w) = (Return d, (cfg', w')) ->
  (forall k, In k (dict_keys d) <-> In k (dict_keys (_sections cfg')))
  /\ no_default_section cfg'
  /\ ~ In "DEFAULT" (dict_keys d).
Proof.
  intros Hn Hload.
  assert (Hdict : exists s1,
             no_default_section (fst s1)
             /\ config_as_dict s1 = (Return d, (cfg', w'))).
  { revert Hload. unfold IniLoader_load. unfold bind at 1.
    destruct (try_except _ _ _ (cfg, w)) as [[u | e1 |] s1] eqn:E;
      try discriminate.
    intros H. exists s1. split; [| exact H].
    revert E. unfold try_except. unfold bind at 1.
    destruct (read path (cfg, w)) as [[l | e2 |] s2] eqn:E2;
      apply (read_no_default path (cfg, w) _ _ Hn) in E2.
    - unfold ret. intros E. inversion E; subst. exact E2.
    - destruct (is_MissingSectionHeaderError e2); [| discriminate].
      intros E. exact (_add_section_head_no_default _ _ _ _ E2 E).
    - discriminate. }
  destruct Hdict as [s1 [Hn1 Hdict]].
  pose proof (config_as_dict_pure _ _ _ Hdict) as Hs. subst s1.
  simpl in Hn1.
  assert (Hcomp :
            dict_comprehension (dict_keys (_sections cfg'))
              (fun section =>
                 opts <- options section ;;
                 dict_comprehension opts
                   (fun option => get section option) [])
              [] (cfg', w')
            = (Return d, (cfg', w'))) by exact Hdict.
  assert (Hkeys : forall k,
             In k (dict_keys d) <-> In k (dict_keys (_sections cfg'))).
  { intros k. split; intros Hk.
    - apply (dict_comprehension_keys_sub _ _ _ _ _ _ Hcomp) in Hk.
      now rewrite app_nil_r in Hk.
    - exact (proj1 (dict_comprehension_keys _ _ _ _ _ _ Hcomp) _ Hk). }
  split; [exact Hkeys |]. split; [exact Hn1 |].
  intros Hk. apply Hkeys in Hk. exact (Hn1 Hk).
Qed.

Lemma IniLoader_load_keys_witness :
  (forall k,
     In k (dict_keys [("a", [("x", "1"); ("z", "0")])])
     <-> In k (dict_keys (_sections
                            {| _sections := [("a", [("x", Joined "1")])];
                               _defaults := [("z", Joined "0")] |})))
  /\ no_default_section {| _sections := [("a", [("x", Joined "1")])];
                           _defaults := [("z", Joined "0")] |}
  /\ ~ In "DEFAULT" (dict_keys [("a", [("x", "1"); ("z", "0")])]).
Proof.
  apply (IniLoader_load_keys "d.ini" ConfigParser__init__
           {| _sections := [("a", [("x", Joined "1")])];
              _defaults := [("z", Joined "0")] |}
           {| files := [("d.ini", "[DEFAULT]" ++ nl ++ "z=0" ++ nl
                                   ++ "[a]" ++ nl ++ "x=1" ++ nl)];
              trace := [] |}
           (log (Opened "d.ini")
              (log (ConfigRead "d.ini")
                 {| files := [("d.ini", "[DEFAULT]" ++ nl ++ "z=0" ++ nl
                                         ++ "[a]" ++ nl ++ "x=1" ++ nl)];
                    trace := [] |}))
           [("a", [("x", "1"); ("z", "0")])]).
  - intros H. exact H.
  - reflexivity.
Defined.
